(** * Anota: session-gated authentication and per-user note ownership

    A shallow embedding of the server side of the application:
    - [shared/schema.ts]: the two tables and the three validation schemas;
    - [server/storage.ts]: [DatabaseStorage], the data-access layer;
    - the routes file ([registerRoutes]): [requireAuth] and the eight
      request handlers;
    - [client/src/pages/dashboard.tsx]: [markCompletedMutation], the one client
      composition the specification names.

    Conventions.
    - A JavaScript string is a [string]; each character stands for one UTF-16
      code unit, so that [String.length] is JavaScript's [.length].
    - A request body and a response body are [json] values; a JSON object is a
      finite map from keys to values.
    - The database is explicit state ([Db]): two tables, each in the order
      in which a scan returns its rows, and the two identity sequences.  An
      [integer] column holds a 32-bit integer and a [text] column a string
      without the character U+0000.  The database is reliable: a statement
      fails only for a reason the schema declares (a value that the type of
      its column refuses, a unique or foreign-key violation, a sequence that
      has no value left) or because the query cannot be built.
    - The user id of a session is one that the database issued; the id in
      the path of a request is whatever the client wrote.
    - What the handlers call but the repository does not define is collected
      in the class [Collaborators]. *)

From stdpp Require Import base strings list gmap.
From Stdlib Require Import ZArith Lia DecimalString Ascii.

Open Scope Z_scope.

(** ** JSON values

    A number stands for itself when it is an integer; the handlers inspect
    the numbers of a body only for their type. *)

#[warnings="-register-all"]
Inductive json : Type :=
| JNull
| JBool (b : bool)
| JNum (n : Z)
| JStr (s : string)
| JArr (l : list json)
| JObj (o : gmap string json).

(** ** Zod: issues and the primitive schemas used by [shared/schema.ts] *)

Inductive ZodParsedType :=
| zt_undefined | zt_null | zt_boolean | zt_number | zt_string | zt_array | zt_object.

(** [getParsedType]: a key that is absent from the body reads as [undefined]. *)
Definition getParsedType (v : option json) : ZodParsedType :=
  match v with
  | None => zt_undefined
  | Some JNull => zt_null
  | Some (JBool _) => zt_boolean
  | Some (JNum _) => zt_number
  | Some (JStr _) => zt_string
  | Some (JArr _) => zt_array
  | Some (JObj _) => zt_object
  end.

Inductive ZodIssueCode :=
| invalid_type (received : ZodParsedType)
| too_small (minimum : nat)
| invalid_string_email
| invalid_enum_value (received : string).

(** [issue_message] is the message the schema supplies for the check
    ([None]: the library's default text). *)
Record ZodIssue := {
  issue_code : ZodIssueCode;
  issue_path : list string;
  issue_message : option string;
}.

Definition issue (code : ZodIssueCode) (path : list string) (message : option string)
  : ZodIssue :=
  {| issue_code := code; issue_path := path; issue_message := message |}.

Inductive SafeParse (A : Type) :=
| success (data : A)
| failure (issues : list ZodIssue).
Arguments success {A} data.
Arguments failure {A} issues.

Definition issues_of {A} (r : SafeParse A) : list ZodIssue :=
  match r with
  | success _ => []
  | failure issues => issues
  end.

(** The parts of the platform the handlers rely on and the repository does
    not define. *)
Class Collaborators := {
  (** the pattern behind zod's [z.string().email()] *)
  is_email : string -> bool;
  (** [fromZodError(error).message] of zod-validation-error *)
  fromZodError : list ZodIssue -> string;
  (** [bcrypt.hash(password, rounds)]; the salt bcrypt draws is the third argument *)
  bcrypt_hash : string -> Z -> string -> string;
  (** [bcrypt.compare(password, hash)] *)
  bcrypt_compare : string -> string -> bool;
  (** JavaScript's [parseInt]; [None] is [NaN] *)
  parseInt : string -> option Z;
  (** an integer inside a template literal, as in [`/api/notes/${id}`] *)
  number_toString : Z -> string;
  (** the input conversion of the database's [date] column type followed by
      its output rendering: [None] when the text is refused, otherwise the
      text the column reads back *)
  date_in : string -> option string;
}.

Inductive StringCheck :=
| check_min (value : nat) (message : string)
| check_email (message : string).

Section Zod.
Context `{Collaborators}.

Definition run_check (path : list string) (s : string) (c : StringCheck) : list ZodIssue :=
  match c with
  | check_min value message =>
      if (String.length s <? value)%nat
      then [issue (too_small value) path (Some message)]
      else []
  | check_email message =>
      if is_email s then []
      else [issue invalid_string_email path (Some message)]
  end.

(** [z.string()] followed by its checks: a value that is not a string is one
    [invalid_type] issue; on a string every check runs. *)
Definition z_string (checks : list StringCheck) (path : list string) (v : option json)
  : SafeParse string :=
  match v with
  | Some (JStr s) =>
      match flat_map (run_check path s) checks with
      | [] => success s
      | issues => failure issues
      end
  | _ => failure [issue (invalid_type (getParsedType v)) path None]
  end.

(** [schema.optional()], as [.partial()] makes every field: [undefined] passes. *)
Definition z_optional {A} (schema : list string -> option json -> SafeParse A)
    (path : list string) (v : option json) : SafeParse (option A) :=
  match v with
  | None => success None
  | Some _ =>
      match schema path v with
      | success a => success (Some a)
      | failure issues => failure issues
      end
  end.

End Zod.

(** ** [shared/schema.ts]: rows, insert types and schemas *)

(** A row of [users]. *)
Record User := {
  user_id : Z;
  user_name : string;
  user_email : string;
  user_password : string;
}.

(** The [status] column: ["A Fazer" | "Concluída"]. *)
Inductive NoteStatus := A_Fazer | Concluida.

Definition status_text (s : NoteStatus) : string :=
  match s with
  | A_Fazer => "A Fazer"
  | Concluida => "Concluída"
  end.

(** A row of [notes]. *)
Record Note := {
  note_id : Z;
  note_userId : Z;
  note_title : string;
  note_createdDate : string;
  note_completedDate : string;
  note_status : NoteStatus;
}.

(** [InsertUser = z.infer<typeof insertUserSchema>] *)
Record InsertUser := {
  iu_name : string;
  iu_email : string;
  iu_password : string;
}.

(** [LoginUser = z.infer<typeof loginSchema>] *)
Record LoginUser := {
  lu_email : string;
  lu_password : string;
}.

(** [InsertNote = z.infer<typeof insertNoteSchema>] *)
Record InsertNote := {
  in_title : string;
  in_createdDate : string;
  in_completedDate : string;
  in_status : NoteStatus;
}.

(** [Partial<InsertNote>]: [None] is a key the object does not have. *)
Record PartialInsertNote := {
  set_title : option string;
  set_createdDate : option string;
  set_completedDate : option string;
  set_status : option NoteStatus;
}.

Definition root_type_issue (body : json) : list ZodIssue :=
  [issue (invalid_type (getParsedType (Some body))) [] None].

Section Schema.
Context `{Collaborators}.

(** [z.enum(["A Fazer", "Concluída"])] *)
Definition z_enum_status (path : list string) (v : option json) : SafeParse NoteStatus :=
  match v with
  | Some (JStr s) =>
      if decide (s = status_text A_Fazer) then success A_Fazer
      else if decide (s = status_text Concluida) then success Concluida
      else failure [issue (invalid_enum_value s) path None]
  | _ => failure [issue (invalid_type (getParsedType v)) path None]
  end.

(** [insertUserSchema]: the columns of [users] without [id]; keys of the body
    that the schema does not name are dropped, and the issues of all fields
    are collected in the order of the columns. *)
Definition insertUserSchema (body : json) : SafeParse InsertUser :=
  match body with
  | JObj o =>
      let name := z_string [check_min 1 "Nome é obrigatório"] ["name"] (o !! "name") in
      let email := z_string [check_email "Email inválido"] ["email"] (o !! "email") in
      let password :=
        z_string [check_min 6 "Senha deve ter pelo menos 6 caracteres"] ["password"]
                 (o !! "password") in
      match name, email, password with
      | success n, success e, success p =>
          success {| iu_name := n; iu_email := e; iu_password := p |}
      | _, _, _ => failure (issues_of name ++ issues_of email ++ issues_of password)
      end
  | _ => failure (root_type_issue body)
  end.

(** [loginSchema] *)
Definition loginSchema (body : json) : SafeParse LoginUser :=
  match body with
  | JObj o =>
      let email := z_string [check_email "Email inválido"] ["email"] (o !! "email") in
      let password :=
        z_string [check_min 1 "Senha é obrigatória"] ["password"] (o !! "password") in
      match email, password with
      | success e, success p => success {| lu_email := e; lu_password := p |}
      | _, _ => failure (issues_of email ++ issues_of password)
      end
  | _ => failure (root_type_issue body)
  end.

Definition title_schema := z_string [check_min 1 "Nome da tarefa é obrigatório"].
Definition createdDate_schema := z_string [].
Definition completedDate_schema := z_string [check_min 1 "Data de conclusão é obrigatória"].

(** [insertNoteSchema]: the columns of [notes] without [id] and [userId]. *)
Definition insertNoteSchema (body : json) : SafeParse InsertNote :=
  match body with
  | JObj o =>
      let title := title_schema ["title"] (o !! "title") in
      let createdDate := createdDate_schema ["createdDate"] (o !! "createdDate") in
      let completedDate := completedDate_schema ["completedDate"] (o !! "completedDate") in
      let status := z_enum_status ["status"] (o !! "status") in
      match title, createdDate, completedDate, status with
      | success t, success c, success d, success s =>
          success {| in_title := t; in_createdDate := c; in_completedDate := d; in_status := s |}
      | _, _, _, _ =>
          failure (issues_of title ++ issues_of createdDate
                   ++ issues_of completedDate ++ issues_of status)
      end
  | _ => failure (root_type_issue body)
  end.

(** [insertNoteSchema.partial()] *)
Definition insertNoteSchema_partial (body : json) : SafeParse PartialInsertNote :=
  match body with
  | JObj o =>
      let title := z_optional title_schema ["title"] (o !! "title") in
      let createdDate := z_optional createdDate_schema ["createdDate"] (o !! "createdDate") in
      let completedDate :=
        z_optional completedDate_schema ["completedDate"] (o !! "completedDate") in
      let status := z_optional z_enum_status ["status"] (o !! "status") in
      match title, createdDate, completedDate, status with
      | success t, success c, success d, success s =>
          success {| set_title := t; set_createdDate := c; set_completedDate := d; set_status := s |}
      | _, _, _, _ =>
          failure (issues_of title ++ issues_of createdDate
                   ++ issues_of completedDate ++ issues_of status)
      end
  | _ => failure (root_type_issue body)
  end.

End Schema.

(** ** Exceptions and the state-and-exception monad of the server *)

Inductive Exception :=
| ZodError (issues : list ZodIssue)   (* [error.name === "ZodError"] *)
| Error (message : string).           (* every other exception *)

Inductive Outcome (A : Type) :=
| Return (a : A)
| Throw (e : Exception).
Arguments Return {A} a.
Arguments Throw {A} e.

(** A computation over a state [S]; the state survives an exception. *)
Definition M (S A : Type) : Type := S -> Outcome A * S.

Definition ret {S A} (a : A) : M S A := fun s => (Return a, s).

Definition throw {S A} (e : Exception) : M S A := fun s => (Throw e, s).

Definition bind {S A B} (c : M S A) (k : A -> M S B) : M S B :=
  fun s =>
    match c s with
    | (Return a, s') => k a s'
    | (Throw e, s') => (Throw e, s')
    end.

(** [try { body } catch (error) { handler }] *)
Definition try_catch {S A} (body : M S A) (handler : Exception -> M S A) : M S A :=
  fun s =>
    match body s with
    | (Return a, s') => (Return a, s')
    | (Throw e, s') => handler e s'
    end.

Notation "x <- c ;; k" := (bind c (fun x => k))
  (at level 100, c at next level, right associativity).

(** [schema.parse(body)]: the data, or a thrown [ZodError]. *)
Definition parse {S A} (r : SafeParse A) : M S A :=
  match r with
  | success data => ret data
  | failure issues => throw (ZodError issues)
  end.

(** ** [server/storage.ts]: the database and [DatabaseStorage] *)

(** The two tables, in the order in which a scan returns their rows (a new
    row, and the new version of an updated row, come last), and the next
    value of each identity sequence. *)
Record Db := {
  users : list User;
  notes : list Note;
  users_id_seq : Z;
  notes_id_seq : Z;
}.

Definition with_users (db : Db) (us : list User) (seq : Z) : Db :=
  {| users := us; notes := notes db; users_id_seq := seq; notes_id_seq := notes_id_seq db |}.

Definition with_notes (db : Db) (ns : list Note) (seq : Z) : Db :=
  {| users := users db; notes := ns; users_id_seq := users_id_seq db; notes_id_seq := seq |}.

(** [.set(noteUpdate)] applied to one row: only the supplied columns change. *)
Definition apply_set (upd : PartialInsertNote) (n : Note) : Note :=
  {| note_id := note_id n;
     note_userId := note_userId n;
     note_title := default (note_title n) (set_title upd);
     note_createdDate := default (note_createdDate n) (set_createdDate upd);
     note_completedDate := default (note_completedDate n) (set_completedDate upd);
     note_status := default (note_status n) (set_status upd) |}.

(** An object without keys: [.set({})] has nothing to set. *)
Definition no_values (upd : PartialInsertNote) : bool :=
  match set_title upd, set_createdDate upd, set_completedDate upd, set_status upd with
  | None, None, None, None => true
  | _, _, _, _ => false
  end.

(** [and(eq(notes.id, id), eq(notes.userId, userId))] *)
Definition id_and_owner (id userId : Z) (n : Note) : Prop :=
  note_id n = id ∧ note_userId n = userId.

#[global] Instance id_and_owner_dec id userId n : Decision (id_and_owner id userId n).
Proof. unfold id_and_owner. apply _. Defined.

(** The [integer] column type: a parameter that is no 32-bit integer is
    refused. *)
Definition int4 (z : Z) : Prop := -2147483648 <= z <= 2147483647.

#[global] Instance int4_dec z : Decision (int4 z).
Proof. unfold int4. apply _. Defined.

(** The [text] column type: a parameter that contains the character U+0000
    is refused. *)
Fixpoint text_in (s : string) : bool :=
  match s with
  | EmptyString => true
  | String c s => if decide (c = "000"%char) then false else text_in s
  end.

(** An optional text that is absent is not refused. *)
Definition text_param (v : option string) : bool :=
  match v with
  | None => true
  | Some s => text_in s
  end.

Section Storage.
Context `{Collaborators}.

(** The [date] columns convert the text they are given; an optional value
    that is absent converts to itself. *)
Definition date_param (v : option string) : option (option string) :=
  match v with
  | None => Some None
  | Some s => Some <$> date_in s
  end.

Definition getUser (id : Z) : M Db (option User) :=
  fun db => (Return (head (filter (λ u, user_id u = id) (users db))), db).

Definition getUserByEmail (email : string) : M Db (option User) :=
  fun db => (Return (head (filter (λ u, user_email u = email) (users db))), db).

(** [insert(users).values(insertUser).returning()].  The three texts are
    bound first: one that the [text] type refuses ends the statement before
    it runs.  Then the identity column takes the next value of its sequence,
    which is used up whether or not the row is inserted; [id] is the primary
    key and [email] is [unique]. *)
Definition createUser (insertUser : InsertUser) : M Db User :=
  fun db =>
    if text_in (iu_name insertUser) && text_in (iu_email insertUser)
       && text_in (iu_password insertUser)
    then
      if decide (int4 (users_id_seq db))
      then
        let issued := with_users db (users db) (users_id_seq db + 1) in
        if decide (Exists (λ u, user_email u = iu_email insertUser) (users db))
        then (Throw (Error "duplicate key value violates unique constraint users_email_unique"),
              issued)
        else if decide (Exists (λ u, user_id u = users_id_seq db) (users db))
        then (Throw (Error "duplicate key value violates unique constraint users_pkey"), issued)
        else
          let user := {| user_id := users_id_seq db;
                         user_name := iu_name insertUser;
                         user_email := iu_email insertUser;
                         user_password := iu_password insertUser |} in
          (Return user, with_users db (users db ++ [user]) (users_id_seq db + 1))
      else (Throw (Error "nextval: reached maximum value of sequence users_id_seq"), db)
    else (Throw (Error "invalid byte sequence for encoding UTF8: 0x00"), db).

Definition getNotesByUserId (userId : Z) : M Db (list Note) :=
  fun db => (Return (filter (λ n, note_userId n = userId) (notes db)), db).

(** [insert(notes).values(note).returning()], [note : InsertNote & { userId }].
    The values are bound first: a title that the [text] type refuses, or a
    date that the [date] conversion refuses, ends the statement before it
    runs.  Then [id], the primary key, takes the next value of its sequence,
    which is used up whether or not the row is inserted; [user_id]
    references [users.id]. *)
Definition createNote (note : InsertNote) (userId : Z) : M Db Note :=
  fun db =>
    if text_in (in_title note)
    then
      match date_in (in_createdDate note), date_in (in_completedDate note) with
      | Some createdDate, Some completedDate =>
          if decide (int4 (notes_id_seq db))
          then
            let issued := with_notes db (notes db) (notes_id_seq db + 1) in
            if decide (Exists (λ u, user_id u = userId) (users db))
            then
              if decide (Exists (λ n, note_id n = notes_id_seq db) (notes db))
              then (Throw (Error "duplicate key value violates unique constraint notes_pkey"),
                    issued)
              else
                let newNote := {| note_id := notes_id_seq db;
                                  note_userId := userId;
                                  note_title := in_title note;
                                  note_createdDate := createdDate;
                                  note_completedDate := completedDate;
                                  note_status := in_status note |} in
                (Return newNote, with_notes db (notes db ++ [newNote]) (notes_id_seq db + 1))
            else (Throw (Error "violates foreign key constraint notes_user_id_users_id_fk"),
                  issued)
          else (Throw (Error "nextval: reached maximum value of sequence notes_id_seq"), db)
      | _, _ => (Throw (Error "invalid input syntax for type date"), db)
      end
    else (Throw (Error "invalid byte sequence for encoding UTF8: 0x00"), db).

(** [update(notes).set(noteUpdate).where(...).returning()].  The builder
    refuses an object with no value to set.  The values are bound whether or
    not a row matches: [NaN] is no integer, and an id that is no 32-bit
    integer, a title that the [text] type refuses and a date that the [date]
    conversion refuses all end the statement before it runs.  The rows that
    match are replaced by their new versions, which a scan returns after the
    rows that were left alone.  The first returned row, or [undefined]. *)
Definition updateNote (id : option Z) (userId : Z) (noteUpdate : PartialInsertNote)
  : M Db (option Note) :=
  fun db =>
    if no_values noteUpdate then (Throw (Error "No values to set"), db)
    else
      match id with
      | Some id =>
          if decide (int4 id)
          then
            if text_param (set_title noteUpdate)
            then
              match date_param (set_createdDate noteUpdate),
                    date_param (set_completedDate noteUpdate) with
              | Some createdDate, Some completedDate =>
                  let values := {| set_title := set_title noteUpdate;
                                   set_createdDate := createdDate;
                                   set_completedDate := completedDate;
                                   set_status := set_status noteUpdate |} in
                  let returning :=
                    apply_set values <$> filter (id_and_owner id userId) (notes db) in
                  let rows :=
                    filter (λ n, ¬ id_and_owner id userId n) (notes db) ++ returning in
                  (Return (head returning), with_notes db rows (notes_id_seq db))
              | _, _ => (Throw (Error "invalid input syntax for type date"), db)
              end
            else (Throw (Error "invalid byte sequence for encoding UTF8: 0x00"), db)
          else (Throw (Error "value out of range for type integer"), db)
      | None => (Throw (Error "invalid input syntax for type integer"), db)
      end.

(** [delete(notes).where(...)]; [(result.rowCount ?? 0) > 0].  The id is
    bound as the values of an update are. *)
Definition deleteNote (id : option Z) (userId : Z) : M Db bool :=
  fun db =>
    match id with
    | Some id =>
        if decide (int4 id)
        then
          let rowCount := length (filter (id_and_owner id userId) (notes db)) in
          (Return (bool_decide (0 < rowCount)%nat),
           with_notes db (filter (λ n, ¬ id_and_owner id userId n) (notes db))
                      (notes_id_seq db))
        else (Throw (Error "value out of range for type integer"), db)
    | None => (Throw (Error "invalid input syntax for type integer"), db)
    end.

End Storage.

(** ** The routes file: sessions, responses, [requireAuth] and the handlers *)

(** [SessionData]: [userId?: number]. *)
Record SessionData := { userId : option Z }.

(** What a request can read and write: the database and its own session. *)
Record World := {
  w_db : Db;
  w_session : SessionData;
}.

(** [res.status(code).json(body)]; [res.json(body)] answers 200. *)
Record Response := {
  res_status : Z;
  res_body : json;
}.

Definition Handler : Type := M World Response.

Definition storage {A} (c : M Db A) : M World A :=
  fun w =>
    let (r, db') := c (w_db w) in
    (r, {| w_db := db'; w_session := w_session w |}).

(** [req.session.userId = id] *)
Definition set_session_userId (id : Z) : M World unit :=
  fun w => (Return tt, {| w_db := w_db w; w_session := {| userId := Some id |} |}).

(** [req.session.destroy(callback)]; the callback receives no error. *)
Definition session_destroy : M World unit :=
  fun w => (Return tt, {| w_db := w_db w; w_session := {| userId := None |} |}).

Definition message_json (message : string) : json :=
  JObj {[ "message" := JStr message ]}.

(** [{ user: { id: user.id, name: user.name, email: user.email } }] *)
Definition user_json (user : User) : json :=
  JObj {[ "user" :=
    JObj (<[ "id" := JNum (user_id user) ]>
         (<[ "name" := JStr (user_name user) ]>
         (<[ "email" := JStr (user_email user) ]> ∅))) ]}.

(** A row of [notes] as the driver returns it. *)
Definition note_json (n : Note) : json :=
  JObj (<[ "id" := JNum (note_id n) ]>
       (<[ "userId" := JNum (note_userId n) ]>
       (<[ "title" := JStr (note_title n) ]>
       (<[ "createdDate" := JStr (note_createdDate n) ]>
       (<[ "completedDate" := JStr (note_completedDate n) ]>
       (<[ "status" := JStr (status_text (note_status n)) ]> ∅)))))).

Definition json_response (code : Z) (body : json) : Handler :=
  ret {| res_status := code; res_body := body |}.

(** [if (!req.session.userId) return 401; next()]: [undefined] and [0] are
    falsy.  The handlers behind it read [req.session.userId!]; here [next]
    receives it. *)
Definition requireAuth (next : Z -> Handler) : Handler :=
  fun w =>
    match userId (w_session w) with
    | Some id =>
        if decide (id = 0) then json_response 401 (message_json "Não autorizado") w
        else next id w
    | None => json_response 401 (message_json "Não autorizado") w
    end.

Section Routes.
Context `{Collaborators}.

(** The [catch] clause of the handlers that validate a body. *)
Definition catch_zod (message : string) (error : Exception) : Handler :=
  match error with
  | ZodError issues => json_response 400 (message_json (fromZodError issues))
  | Error _ => json_response 500 (message_json message)
  end.

(** The [catch] clause of the other handlers. *)
Definition catch_all (message : string) (error : Exception) : Handler :=
  json_response 500 (message_json message).

(** [POST /api/auth/register] *)
Definition POST_auth_register (salt : string) (body : json) : Handler :=
  try_catch
    (validatedData <- parse (insertUserSchema body) ;;
     existingUser <- storage (getUserByEmail (iu_email validatedData)) ;;
     match existingUser with
     | Some _ => json_response 400 (message_json "Email já está em uso")
     | None =>
         let hashedPassword := bcrypt_hash (iu_password validatedData) 10 salt in
         user <- storage (createUser {| iu_name := iu_name validatedData;
                                        iu_email := iu_email validatedData;
                                        iu_password := hashedPassword |}) ;;
         _ <- set_session_userId (user_id user) ;;
         json_response 200 (user_json user)
     end)
    (catch_zod "Erro interno do servidor").

(** [POST /api/auth/login] *)
Definition POST_auth_login (body : json) : Handler :=
  try_catch
    (validatedData <- parse (loginSchema body) ;;
     user <- storage (getUserByEmail (lu_email validatedData)) ;;
     match user with
     | None => json_response 401 (message_json "Email ou senha inválidos")
     | Some user =>
         let isValidPassword :=
           bcrypt_compare (lu_password validatedData) (user_password user) in
         if negb isValidPassword
         then json_response 401 (message_json "Email ou senha inválidos")
         else
           _ <- set_session_userId (user_id user) ;;
           json_response 200 (user_json user)
     end)
    (catch_zod "Erro interno do servidor").

(** [POST /api/auth/logout] *)
Definition POST_auth_logout : Handler :=
  _ <- session_destroy ;;
  json_response 200 (message_json "Logout realizado com sucesso").

(** [GET /api/auth/me] *)
Definition GET_auth_me : Handler :=
  requireAuth (fun session_userId =>
    try_catch
      (user <- storage (getUser session_userId) ;;
       match user with
       | None => json_response 404 (message_json "Usuário não encontrado")
       | Some user => json_response 200 (user_json user)
       end)
      (catch_all "Erro interno do servidor")).

(** [GET /api/notes] *)
Definition GET_notes : Handler :=
  requireAuth (fun session_userId =>
    try_catch
      (notes <- storage (getNotesByUserId session_userId) ;;
       json_response 200 (JArr (note_json <$> notes)))
      (catch_all "Erro ao buscar anotações")).

(** [POST /api/notes] *)
Definition POST_notes (body : json) : Handler :=
  requireAuth (fun session_userId =>
    try_catch
      (validatedData <- parse (insertNoteSchema body) ;;
       note <- storage (createNote validatedData session_userId) ;;
       json_response 200 (note_json note))
      (catch_zod "Erro ao criar anotação")).

(** [PUT /api/notes/:id] *)
Definition PUT_notes_id (params_id : string) (body : json) : Handler :=
  requireAuth (fun session_userId =>
    try_catch
      (let noteId := parseInt params_id in
       validatedData <- parse (insertNoteSchema_partial body) ;;
       updatedNote <- storage (updateNote noteId session_userId validatedData) ;;
       match updatedNote with
       | None => json_response 404 (message_json "Anotação não encontrada")
       | Some updatedNote => json_response 200 (note_json updatedNote)
       end)
      (catch_zod "Erro ao atualizar anotação")).

(** [DELETE /api/notes/:id] *)
Definition DELETE_notes_id (params_id : string) : Handler :=
  requireAuth (fun session_userId =>
    try_catch
      (let noteId := parseInt params_id in
       deleted <- storage (deleteNote noteId session_userId) ;;
       if negb deleted
       then json_response 404 (message_json "Anotação não encontrada")
       else json_response 200 (message_json "Anotação excluída com sucesso"))
      (catch_all "Erro ao excluir anotação")).

End Routes.

(** ** Requests, the server as a whole, and the client's [markCompletedMutation] *)

Inductive Request :=
| Register (salt : string) (body : json)
| Login (body : json)
| Logout
| WhoAmI
| ListNotes
| CreateNote (body : json)
| UpdateNote (params_id : string) (body : json)
| DeleteNote (params_id : string).

Section Server.
Context `{Collaborators}.

Definition handle (r : Request) : Handler :=
  match r with
  | Register salt body => POST_auth_register salt body
  | Login body => POST_auth_login body
  | Logout => POST_auth_logout
  | WhoAmI => GET_auth_me
  | ListNotes => GET_notes
  | CreateNote body => POST_notes body
  | UpdateNote params_id body => PUT_notes_id params_id body
  | DeleteNote params_id => DELETE_notes_id params_id
  end.

(** The database after a request served under the session it presents. *)
Definition serve (db : Db) (call : SessionData * Request) : Db :=
  w_db (snd (handle (snd call) {| w_db := db; w_session := fst call |})).

(** Any sequence of requests, each under whatever session it presents. *)
Definition serve_all (db : Db) (calls : list (SessionData * Request)) : Db :=
  foldl serve db calls.

(** [dashboard.tsx], [markCompletedMutation]: [today] is
    [new Date().toISOString().split('T')[0]] at the time of the call. *)
Definition markCompletedMutation (today : string) (id : Z) : Request :=
  UpdateNote (number_toString id)
    (JObj (<[ "status" := JStr "Concluída" ]> (<[ "completedDate" := JStr today ]> ∅))).

End Server.

(** ** The vocabulary of the specification *)

(** The operations registered behind [requireAuth]. *)
Definition protected (r : Request) : bool :=
  match r with
  | WhoAmI | ListNotes | CreateNote _ | UpdateNote _ _ | DeleteNote _ => true
  | Register _ _ | Login _ | Logout => false
  end.

(** The operations that answer with a user profile. *)
Definition answers_profile (r : Request) : bool :=
  match r with
  | Register _ _ | Login _ | WhoAmI => true
  | _ => false
  end.

(** Unauthenticated *)
Definition unauthenticated : Response :=
  {| res_status := 401; res_body := message_json "Não autorizado" |}.

(** InvalidCredentials *)
Definition invalid_credentials : Response :=
  {| res_status := 401; res_body := message_json "Email ou senha inválidos" |}.

(** DuplicateEmail *)
Definition duplicate_email : Response :=
  {| res_status := 400; res_body := message_json "Email já está em uso" |}.

(** NotFound, for a note *)
Definition note_not_found : Response :=
  {| res_status := 404; res_body := message_json "Anotação não encontrada" |}.

(** InternalError *)
Definition internal_error (message : string) : Response :=
  {| res_status := 500; res_body := message_json message |}.

(** The success response of register, login and whoami. *)
Definition profile_response (user : User) : Response :=
  {| res_status := 200; res_body := user_json user |}.

(** The success response of create and update. *)
Definition note_response (note : Note) : Response :=
  {| res_status := 200; res_body := note_json note |}.

(** The row [createUser] inserts. *)
Definition registered (db : Db) (data : InsertUser) (hashedPassword : string) : User :=
  {| user_id := users_id_seq db;
     user_name := iu_name data;
     user_email := iu_email data;
     user_password := hashedPassword |}.

(** The row [createNote] inserts for [input], owned by [u]. *)
Definition inserted (db : Db) (u : Z) (input : InsertNote) (createdDate completedDate : string)
  : Note :=
  {| note_id := notes_id_seq db;
     note_userId := u;
     note_title := in_title input;
     note_createdDate := createdDate;
     note_completedDate := completedDate;
     note_status := in_status input |}.

(** A note after MarkCompleted on the date [today]. *)
Definition completed (today : string) (n : Note) : Note :=
  {| note_id := note_id n;
     note_userId := note_userId n;
     note_title := note_title n;
     note_createdDate := note_createdDate n;
     note_completedDate := today;
     note_status := Concluida |}.

(** The primary key of [notes], an [integer] identity column: ids are
    unique, are 32-bit integers and were issued by the identity sequence. *)
Definition notes_pkey (db : Db) : Prop :=
  NoDup (note_id <$> notes db)
  ∧ Forall (λ n, int4 (note_id n) ∧ note_id n < notes_id_seq db) (notes db).

Section Vocabulary.
Context `{Collaborators}.

(** ValidationError, itemised by [issues] *)
Definition validation_error (issues : list ZodIssue) : Response :=
  {| res_status := 400; res_body := message_json (fromZodError issues) |}.

(** An update the database executes: there is a value to set, the title,
    if one is supplied, is a text, and the dates that are supplied are
    dates. *)
Definition executable (noteUpdate : PartialInsertNote) : Prop :=
  no_values noteUpdate = false
  ∧ text_param (set_title noteUpdate) = true
  ∧ is_Some (date_param (set_createdDate noteUpdate))
  ∧ is_Some (date_param (set_completedDate noteUpdate)).

(** The fields of a registration that validation rejects: an empty name, an
    email the pattern does not match, a password of fewer than 6 characters. *)
Definition offending_fields (name email password : string) : list string :=
  (if decide (name = "") then ["name"] else [])
  ++ (if is_email email then [] else ["email"])
  ++ (if decide (String.length password < 6)%nat then ["password"] else []).

End Vocabulary.

(** What one request can do to the [notes] table; a create that the
    database refuses may have used up a value of the sequence. *)
Inductive notes_step (db : Db) (call : SessionData * Request) (db' : Db) : Prop :=
| step_same :
    notes db' = notes db ->
    notes_id_seq db' = notes_id_seq db ∨ notes_id_seq db' = notes_id_seq db + 1 ->
    notes_step db call db'
| step_insert (u : Z) (body : json) (input : InsertNote) (c d : string) :
    call.2 = CreateNote body ->
    userId call.1 = Some u ->
    ¬ Exists (λ n, note_id n = notes_id_seq db) (notes db) ->
    int4 (notes_id_seq db) ->
    notes db' = notes db ++ [inserted db u input c d] ->
    notes_id_seq db' = notes_id_seq db + 1 ->
    notes_step db call db'
| step_update (P : Note -> Prop) (HP : ∀ x, Decision (P x)) (values : PartialInsertNote) :
    notes db' = filter (λ n, ¬ P n) (notes db) ++ (apply_set values <$> filter P (notes db)) ->
    notes_id_seq db' = notes_id_seq db ->
    notes_step db call db'
| step_delete (P : Note -> Prop) (HP : ∀ x, Decision (P x)) :
    notes db' = filter P (notes db) ->
    notes_id_seq db' = notes_id_seq db ->
    notes_step db call db'.

(** Where a note [n'] comes from, seen from a database [db] and the
    requests [calls] served since: it was a note of [db] with the same id and
    owner, or one of the requests created it for the user of its session,
    under an id the sequence of [db] had not issued. *)
Definition provenance (db : Db) (calls : list (SessionData * Request)) (n' : Note) : Prop :=
  (∃ n, n ∈ notes db ∧ note_id n = note_id n' ∧ note_userId n = note_userId n')
  ∨ (notes_id_seq db <= note_id n'
     ∧ ∃ session body,
         (session, CreateNote body) ∈ calls ∧ userId session = Some (note_userId n')).

(** ** An executable instance of the collaborators

    Used to run the handlers on concrete requests: ISO calendar dates for
    the [date] type (year, month and day between hyphens, read back as
    [YYYY-MM-DD]), decimal numerals for [parseInt] and for template
    literals, a keyed digest in place of bcrypt. *)

Definition digit (c : ascii) : option Z :=
  let n := Z.of_N (N_of_ascii c) in
  if decide (48 <= n <= 57) then Some (n - 48) else None.

Fixpoint digits_value (acc : Z) (cs : list ascii) : option Z :=
  match cs with
  | [] => Some acc
  | c :: cs => d ← digit c; digits_value (10 * acc + d) cs
  end.

Definition leap_year (y : Z) : bool :=
  bool_decide ((y mod 4 = 0 ∧ y mod 100 ≠ 0) ∨ y mod 400 = 0).

Definition days_in_month (y m : Z) : Z :=
  if decide (m = 2) then (if leap_year y then 29 else 28)
  else if decide (m = 4 ∨ m = 6 ∨ m = 9 ∨ m = 11) then 30
  else 31.

(** The fields of a text between hyphens. *)
Fixpoint fields_of (cs : list ascii) : list (list ascii) :=
  match cs with
  | [] => [[]]
  | c :: cs =>
      if decide (c = "-"%char) then [] :: fields_of cs
      else
        match fields_of cs with
        | field :: fields => (c :: field) :: fields
        | [] => [[c]]
        end
  end.

(** A month or a day, written with two digits. *)
Definition two_digits (field : list ascii) : list ascii :=
  match field with
  | [c] => ["0"%char; c]
  | _ => field
  end.

(** A well-formed calendar date: a year of four digits, a month and a day of
    one or two digits; the database reads it back with two digits for each
    of the month and the day. *)
Definition iso_date (s : string) : option string :=
  match fields_of (String.list_ascii_of_string s) with
  | [year; month; day] =>
      y ← digits_value 0 year;
      m ← digits_value 0 month;
      d ← digits_value 0 day;
      if decide (length year = 4%nat
                 ∧ (1 <= length month <= 2)%nat ∧ (1 <= length day <= 2)%nat
                 ∧ 1 <= y ∧ 1 <= m <= 12 ∧ 1 <= d <= days_in_month y m)
      then Some (String.string_of_list_ascii
                   (year ++ "-"%char :: two_digits month ++ "-"%char :: two_digits day))
      else None
  | _ => None
  end.

Definition decimal_parseInt (s : string) : option Z :=
  Z.of_int <$> NilZero.int_of_string s.

Definition decimal_toString (z : Z) : string :=
  NilZero.string_of_int (Z.to_int z).

(** A non-empty local part followed by [@]. *)
Definition simple_email (s : string) : bool :=
  match String.index 0 "@" s with
  | Some (S _) => true
  | _ => false
  end.

Definition digest (s : string) : string :=
  decimal_toString
    (foldl (λ acc c, (acc * 131 + Z.of_N (N_of_ascii c)) mod 1000003) 7
           (String.list_ascii_of_string s)).

Definition digest_hash (password : string) (rounds : Z) (salt : string) : string :=
  salt +:+ "$" +:+ digest (salt +:+ password).

Definition digest_compare (password hash : string) : bool :=
  match String.index 0 "$" hash with
  | Some i => bool_decide (hash = digest_hash password 10 (String.substring 0 i hash))
  | None => false
  end.

Definition dquote : string := String "034"%char EmptyString.

(** The rendering of zod-validation-error: the message of the issue, then
    its path between double quotes; a default message is abbreviated. *)
Definition render_issue (i : ZodIssue) : string :=
  let message := default "Invalid input" (issue_message i) in
  match issue_path i with
  | [] => message
  | path => message +:+ " at " +:+ dquote +:+ String.concat "." path +:+ dquote
  end.

Definition render_issues (issues : list ZodIssue) : string :=
  "Validation error: " +:+ String.concat "; " (render_issue <$> issues).

(** The message for one issue with the text [message] at the field [field]. *)
Definition one_issue_message (message field : string) : string :=
  "Validation error: " +:+ message +:+ " at " +:+ dquote +:+ field +:+ dquote.

Definition reference : Collaborators := {|
  is_email := simple_email;
  fromZodError := render_issues;
  bcrypt_hash := digest_hash;
  bcrypt_compare := digest_compare;
  parseInt := decimal_parseInt;
  number_toString := decimal_toString;
  date_in := iso_date;
|}.

(** ** Example data: the scenario of the specification *)

Definition object (fields : list (string * json)) : json := JObj (list_to_map fields).

Definition empty_db : Db :=
  {| users := []; notes := []; users_id_seq := 1; notes_id_seq := 1 |}.

Definition anonymous : SessionData := {| userId := None |}.

Definition signed_in (id : Z) : SessionData := {| userId := Some id |}.

Definition world (db : Db) (session : SessionData) : World :=
  {| w_db := db; w_session := session |}.

Definition ana_body : json :=
  object [("name", JStr "Ana"); ("email", JStr "ana@x.com"); ("password", JStr "secret1")].

(** Ana's email again, with a password that is too short. *)
Definition ana_again_body : json :=
  object [("name", JStr "Ana"); ("email", JStr "ana@x.com"); ("password", JStr "abc")].

Definition bob_body : json :=
  object [("name", JStr "Bob"); ("email", JStr "bob@x.com"); ("password", JStr "hunter22")].

Definition login_body (email password : string) : json :=
  object [("email", JStr email); ("password", JStr password)].

Definition pay_bills_body : json :=
  object [("title", JStr "Pay bills"); ("createdDate", JStr "2024-01-01");
          ("completedDate", JStr "2024-01-01"); ("status", JStr "A Fazer")].

(** "Pay bills" again, with an owner of the client's choosing. *)
Definition pay_bills_forged_body : json :=
  object [("title", JStr "Pay bills"); ("createdDate", JStr "2024-01-01");
          ("completedDate", JStr "2024-01-01"); ("status", JStr "A Fazer");
          ("userId", JNum 2)].

(** "Pay bills" created on a day the calendar does not have. *)
Definition pay_bills_no_date_body : json :=
  object [("title", JStr "Pay bills"); ("createdDate", JStr "2024-02-30");
          ("completedDate", JStr "2024-03-01"); ("status", JStr "A Fazer")].

(** Ana has registered (salt "salt1"): she is user 1. *)
Definition ana_db : Db :=
  @serve reference empty_db (anonymous, Register "salt1" ana_body).

Definition ana : User :=
  {| user_id := 1; user_name := "Ana"; user_email := "ana@x.com";
     user_password := digest_hash "secret1" 10 "salt1" |}.

(** Ana and Bob have registered. *)
Definition two_users_db : Db :=
  @serve reference ana_db (anonymous, Register "salt2" bob_body).

(** ... and Ana has created the note "Pay bills": it is note 1. *)
Definition ana_note_db : Db :=
  @serve reference two_users_db (signed_in 1, CreateNote pay_bills_body).

Definition pay_bills : Note :=
  {| note_id := 1; note_userId := 1; note_title := "Pay bills";
     note_createdDate := "2024-01-01"; note_completedDate := "2024-01-01";
     note_status := A_Fazer |}.

(** "Pay bills", to be completed on a date written without leading zeros. *)
Definition pay_bills_short_date_body : json :=
  object [("title", JStr "Pay bills"); ("createdDate", JStr "2024-01-01");
          ("completedDate", JStr "2024-1-5"); ("status", JStr "A Fazer")].

Definition pay_bills_short_date : InsertNote :=
  {| in_title := "Pay bills"; in_createdDate := "2024-01-01";
     in_completedDate := "2024-1-5"; in_status := A_Fazer |}.

(** The note the database stores for it. *)
Definition pay_bills_jan_5 : Note :=
  {| note_id := 1; note_userId := 1; note_title := "Pay bills";
     note_createdDate := "2024-01-01"; note_completedDate := "2024-01-05";
     note_status := A_Fazer |}.


(** ** Further vocabulary: users, steps of the database, bound updates *)

(** The constraints of [users]: ids are unique, positive and were issued by
    the identity sequence, which starts at 1; emails are unique. *)
Definition users_pkey (db : Db) : Prop :=
  NoDup (user_id <$> users db)
  ∧ Forall (λ u, 0 < user_id u < users_id_seq db) (users db)
  ∧ 0 < users_id_seq db
  ∧ NoDup (user_email <$> users db).

(** The requests that write to [users], and those that write to [notes]. *)
Definition writes_users (r : Request) : bool :=
  match r with
  | Register _ _ => true
  | _ => false
  end.

Definition writes_notes (r : Request) : bool :=
  match r with
  | CreateNote _ | UpdateNote _ _ | DeleteNote _ => true
  | _ => false
  end.

Section Steps.
Context `{Collaborators}.

(** The values [updateNote] binds: the update with its dates converted;
    none when the title or a date is refused. *)
Definition bound_values (noteUpdate : PartialInsertNote) : option PartialInsertNote :=
  if text_param (set_title noteUpdate)
  then
    match date_param (set_createdDate noteUpdate),
          date_param (set_completedDate noteUpdate) with
    | Some createdDate, Some completedDate =>
        Some {| set_title := set_title noteUpdate;
                set_createdDate := createdDate;
                set_completedDate := completedDate;
                set_status := set_status noteUpdate |}
    | _, _ => None
    end
  else None.

(** What one request can do to the database; a register or a create that
    the database refuses may have used up a value of the sequence. *)
Inductive db_step (db : Db) (call : SessionData * Request) (db' : Db) : Prop :=
| db_same :
    db' = db ->
    db_step db call db'
| db_register_refused (salt : string) (body : json) :
    call.2 = Register salt body ->
    db' = with_users db (users db) (users_id_seq db + 1) ->
    db_step db call db'
| db_create_refused (body : json) :
    call.2 = CreateNote body ->
    db' = with_notes db (notes db) (notes_id_seq db + 1) ->
    db_step db call db'
| db_register (salt : string) (body : json) (data : InsertUser) :
    call.2 = Register salt body ->
    insertUserSchema body = success data ->
    ¬ Exists (λ x, user_email x = iu_email data) (users db) ->
    ¬ Exists (λ x, user_id x = users_id_seq db) (users db) ->
    db' = with_users db
            (users db ++ [registered db data (bcrypt_hash (iu_password data) 10 salt)])
            (users_id_seq db + 1) ->
    db_step db call db'
| db_create (u : Z) (body : json) (input : InsertNote) (c d : string) :
    call.2 = CreateNote body ->
    userId call.1 = Some u ->
    db' = with_notes db (notes db ++ [inserted db u input c d]) (notes_id_seq db + 1) ->
    db_step db call db'
| db_update (params_id : string) (body : json)
    (P : Note -> Prop) (HP : ∀ x, Decision (P x)) (values : PartialInsertNote) :
    call.2 = UpdateNote params_id body ->
    db' = with_notes db
            (filter (λ n, ¬ P n) (notes db) ++ (apply_set values <$> filter P (notes db)))
            (notes_id_seq db) ->
    db_step db call db'
| db_delete (params_id : string) (P : Note -> Prop) (HP : ∀ x, Decision (P x)) :
    call.2 = DeleteNote params_id ->
    db' = with_notes db (filter P (notes db)) (notes_id_seq db) ->
    db_step db call db'.

End Steps.

(** ** The client: the forms of [register.tsx] and [dashboard.tsx]

    A form holds strings (and, for the status, one of the two options); what
    a mutation sends is the JSON rendering of its data. *)

(** [RegisterForm = z.infer<typeof registerFormSchema>] *)
Record RegisterForm := {
  rf_name : string;
  rf_email : string;
  rf_password : string;
  rf_confirmPassword : string;
}.

(** An error of a form: the path of the field and the message shown under it. *)
Definition FormError : Type := list string * string.

Definition form_error (i : ZodIssue) : FormError :=
  (issue_path i, default "" (issue_message i)).

(** [dashboard.tsx]: [type FilterType = "all" | "todo" | "completed"]. *)
Module FilterType.
Inductive t := all | todo | completed.
End FilterType.

(** The predicate of [notes.filter(...)] in [filteredNotes]. *)
Definition shown (filter : FilterType.t) (note : Note) : Prop :=
  match filter with
  | FilterType.todo => status_text (note_status note) = "A Fazer"
  | FilterType.completed => status_text (note_status note) = "Concluída"
  | FilterType.all => True
  end.

#[global] Instance shown_dec filter note : Decision (shown filter note).
Proof. destruct filter; simpl; apply _. Defined.

Definition filteredNotes (filter : FilterType.t) (notes : list Note) : list Note :=
  base.filter (shown filter) notes.

(** The body of a request whose data is an [InsertNote]. *)
Definition insert_note_json (data : InsertNote) : json :=
  JObj (<[ "title" := JStr (in_title data) ]>
       (<[ "createdDate" := JStr (in_createdDate data) ]>
       (<[ "completedDate" := JStr (in_completedDate data) ]>
       (<[ "status" := JStr (status_text (in_status data)) ]> ∅)))).

(** The body of a registration: the form's data without [confirmPassword]. *)
Definition insert_user_json (name email password : string) : json :=
  JObj (<[ "name" := JStr name ]>
       (<[ "email" := JStr email ]>
       (<[ "password" := JStr password ]> ∅))).

(** [handleEdit]: the form is reset to the note; [today] stands in for a
    completion date that is empty ([note.completedDate || today]). *)
Definition handleEdit (today : string) (note : Note) : InsertNote :=
  {| in_title := note_title note;
     in_createdDate := note_createdDate note;
     in_completedDate :=
       if decide (note_completedDate note = "") then today else note_completedDate note;
     in_status := note_status note |}.

Section Client.
Context `{Collaborators}.

(** [registerFormSchema]: [insertUserSchema] extended with [confirmPassword]
    and refined by the equality of the two passwords.  On the strings of a
    form no field fails by its type, and the refinement runs whether or not
    a check of a field has failed. *)
Definition registerFormSchema (values : RegisterForm) : list FormError + RegisterForm :=
  let field_issues :=
    run_check ["name"] (rf_name values) (check_min 1 "Nome é obrigatório")
    ++ run_check ["email"] (rf_email values) (check_email "Email inválido")
    ++ run_check ["password"] (rf_password values)
         (check_min 6 "Senha deve ter pelo menos 6 caracteres")
    ++ run_check ["confirmPassword"] (rf_confirmPassword values)
         (check_min 1 "Confirmação de senha é obrigatória") in
  let refinement :=
    if decide (rf_password values = rf_confirmPassword values) then []
    else [(["confirmPassword"], "Senhas não coincidem")] in
  match (form_error <$> field_issues) ++ refinement with
  | [] => inr values
  | errors => inl errors
  end.

(** [register.tsx], [form.handleSubmit(onSubmit)]: when the form is valid,
    [onSubmit] drops [confirmPassword] and [registerMutation] posts the rest;
    [salt] is what bcrypt will draw on the server. *)
Definition register_handleSubmit (salt : string) (values : RegisterForm) : option Request :=
  match registerFormSchema values with
  | inr data =>
      Some (Register salt (insert_user_json (rf_name data) (rf_email data) (rf_password data)))
  | inl _ => None
  end.

(** [dashboard.tsx], [onSubmit]: an update of the note being edited, or a
    create. *)
Definition onSubmit (editingNote : option Note) (data : InsertNote) : Request :=
  match editingNote with
  | Some note => UpdateNote (number_toString (note_id note)) (insert_note_json data)
  | None => CreateNote (insert_note_json data)
  end.

(** [form.handleSubmit(onSubmit)] with [zodResolver(insertNoteSchema)]. *)
Definition handleSubmit (editingNote : option Note) (values : InsertNote) : option Request :=
  match insertNoteSchema (insert_note_json values) with
  | success data => Some (onSubmit editingNote data)
  | failure _ => None
  end.

End Client.

(** ** Further example data *)

(** Ana has deleted her note. *)
Definition ana_deleted_db : Db :=
  @serve reference ana_note_db (signed_in 1, DeleteNote "1").

(** Ana renames her note. *)
Definition rename_body : json := object [("title", JStr "Pay rent")].

Definition rename : PartialInsertNote :=
  {| set_title := Some "Pay rent"; set_createdDate := None;
     set_completedDate := None; set_status := None |}.

Definition pay_rent : Note :=
  {| note_id := 1; note_userId := 1; note_title := "Pay rent";
     note_createdDate := "2024-01-01"; note_completedDate := "2024-01-01";
     note_status := A_Fazer |}.

(** The edit form, filled in by Ana. *)
Definition pay_rent_form : InsertNote :=
  {| in_title := "Pay rent"; in_createdDate := "2024-02-01";
     in_completedDate := "2024-02-15"; in_status := Concluida |}.


(** Ana has a second note, "Buy milk": it is note 2. *)
Definition buy_milk_body : json :=
  object [("title", JStr "Buy milk"); ("createdDate", JStr "2024-01-02");
          ("completedDate", JStr "2024-01-03"); ("status", JStr "A Fazer")].

Definition buy_milk : Note :=
  {| note_id := 2; note_userId := 1; note_title := "Buy milk";
     note_createdDate := "2024-01-02"; note_completedDate := "2024-01-03";
     note_status := A_Fazer |}.

Definition two_notes_db : Db :=
  @serve reference ana_note_db (signed_in 1, CreateNote buy_milk_body).

(** A title with the character U+0000 in it. *)
Definition broken_title : string := "Pay" +:+ String "000"%char "bills".

Definition broken_title_body : json :=
  object [("title", JStr broken_title); ("createdDate", JStr "2024-01-01");
          ("completedDate", JStr "2024-01-01"); ("status", JStr "A Fazer")].

(** A registration whose name has the character U+0000 in it. *)
Definition broken_name_body : json :=
  object [("name", JStr broken_title); ("email", JStr "eve@x.com");
          ("password", JStr "secret1")].
(** ** Properties *)

Example ana_note_db_notes : notes ana_note_db = [pay_bills].
Proof. vm_compute. reflexivity. Qed.

Section Properties.
Context `{Collaborators}.

Ltac run :=
  unfold handle, POST_auth_register, POST_auth_login, POST_auth_logout, GET_auth_me,
    GET_notes, POST_notes, PUT_notes_id, DELETE_notes_id, requireAuth, catch_zod, catch_all,
    try_catch, bind, parse, storage, json_response, set_session_userId, session_destroy,
    ret, throw in *;
  simpl in *.

Lemma world_eta (w : World) : {| w_db := w_db w; w_session := w_session w |} = w.
Proof. by destruct w. Qed.

Lemma with_notes_same (db : Db) : with_notes db (notes db) (notes_id_seq db) = db.
Proof. by destruct db. Qed.

(** Whatever stands behind [requireAuth] does not run without a session user. *)
Lemma requireAuth_unauthenticated (next : Z -> Handler) (w : World) :
  userId (w_session w) = None ->
  requireAuth next w = (Return unauthenticated, w).
Proof. intros Hs. unfold requireAuth. by rewrite Hs. Qed.

Lemma requireAuth_authenticated (next : Z -> Handler) (w : World) (u : Z) :
  userId (w_session w) = Some u -> u ≠ 0 -> requireAuth next w = next u w.
Proof. intros Hs Hu. unfold requireAuth. rewrite Hs. by destruct (decide (u = 0)). Qed.

(** C5. Every protected operation (whoami, list notes, create note, update
    note, delete note) is its handler placed behind [requireAuth]; presented
    with a session that resolves to no user id, it answers 401
    (Unauthenticated) and leaves the database and the session exactly as
    they were; and that is [requireAuth]'s answer whatever handler stands
    behind it, so the handler does not run. *)
Theorem protected_requires_session (r : Request) (w : World) :
  protected r = true ->
  userId (w_session w) = None ->
  handle r w = (Return unauthenticated, w)
  ∧ (∃ next, handle r = requireAuth next)
  ∧ (∀ next, requireAuth next w = (Return unauthenticated, w)).
Proof.
  intros Hp Hs. split; [|split].
  - destruct r; simpl in Hp; try discriminate; simpl;
      by apply requireAuth_unauthenticated.
  - destruct r; simpl in Hp; try discriminate; eexists; reflexivity.
  - intros next. by apply requireAuth_unauthenticated.
Qed.

(** *** The [notes] table *)

Lemma pkey_unique (l : list Note) (n m : Note) :
  NoDup (note_id <$> l) -> n ∈ l -> m ∈ l -> note_id n = note_id m -> n = m.
Proof.
  induction l as [|x l IH]; intros Hnd Hn Hm Heq.
  - by apply elem_of_nil in Hn.
  - rewrite fmap_cons in Hnd. apply NoDup_cons in Hnd as [Hx Hnd].
    apply elem_of_cons in Hn as [->|Hn]; apply elem_of_cons in Hm as [->|Hm]; auto.
    + exfalso. apply Hx. rewrite Heq. by apply list_elem_of_fmap_2.
    + exfalso. apply Hx. rewrite <- Heq. by apply list_elem_of_fmap_2.
Qed.

Lemma filter_none {A} (P : A -> Prop) `{!∀ x, Decision (P x)} (l : list A) :
  (∀ x, x ∈ l -> ¬ P x) -> filter P l = [].
Proof.
  intros Hl. destruct (filter P l) as [|x xs] eqn:E; [done|].
  assert (x ∈ filter P l) as Hx by (rewrite E; apply list_elem_of_here).
  apply list_elem_of_filter in Hx as [HP Hx]. by destruct (Hl x Hx).
Qed.

Lemma filter_all {A} (P : A -> Prop) `{!∀ x, Decision (P x)} (l : list A) :
  (∀ x, x ∈ l -> P x) -> filter P l = l.
Proof.
  induction l as [|x l IH]; intros Hl; [done|].
  rewrite filter_cons. destruct (decide (P x)) as [|Hn].
  - f_equal. apply IH. intros y Hy. apply Hl. by apply list_elem_of_further.
  - destruct Hn. apply Hl, list_elem_of_here.
Qed.

(** The table after an update holds what an update in place would hold. *)
Lemma update_perm {A} (P : A -> Prop) `{!∀ x, Decision (P x)} (f : A -> A) (l : list A) :
  filter (λ n, ¬ P n) l ++ (f <$> filter P l)
  ≡ₚ (λ n, if decide (P n) then f n else n) <$> l.
Proof.
  induction l as [|x l IH]; [done|].
  rewrite !filter_cons, fmap_cons. destruct (decide (P x)) as [HP|HP].
  - rewrite decide_False by tauto. rewrite fmap_cons.
    rewrite <- Permutation_middle. by constructor.
  - rewrite decide_True by done. simpl. by constructor.
Qed.

Lemma head_filter_elem {A} (P : A -> Prop) `{!∀ x, Decision (P x)} (l : list A) (x : A) :
  x ∈ l -> P x -> ∃ y, head (filter P l) = Some y ∧ y ∈ l ∧ P y.
Proof.
  intros Hx HP. destruct (filter P l) as [|y ys] eqn:E.
  - exfalso. eapply filter_nil_not_elem_of; eauto.
  - exists y. split; [done|].
    assert (y ∈ filter P l) as Hy by (rewrite E; apply list_elem_of_here).
    apply list_elem_of_filter in Hy as [? ?]. done.
Qed.

Lemma head_filter_inv {A} (P : A -> Prop) `{!∀ x, Decision (P x)} (l : list A) (y : A) :
  head (filter P l) = Some y -> y ∈ l ∧ P y.
Proof.
  intros Hh. destruct (filter P l) as [|z ys] eqn:E; [done|]. injection Hh as ->.
  assert (y ∈ filter P l) as Hy by (rewrite E; apply list_elem_of_here).
  apply list_elem_of_filter in Hy as [? ?]. done.
Qed.

Lemma head_filter_None {A} (P : A -> Prop) `{!∀ x, Decision (P x)} (l : list A) :
  head (filter P l) = None -> ¬ Exists P l.
Proof.
  intros Hh Hex. apply Exists_exists in Hex as (x & Hx & HP).
  destruct (head_filter_elem P l x Hx HP) as (y & Hy & _). congruence.
Qed.

(** The id of a stored note is a 32-bit integer. *)
Lemma pkey_int4 (db : Db) (n : Note) : notes_pkey db -> n ∈ notes db -> int4 (note_id n).
Proof.
  intros [_ Hall] Hn. rewrite Forall_forall in Hall. by destruct (Hall n Hn).
Qed.

Lemma pkey_issued (db : Db) (n : Note) :
  notes_pkey db -> n ∈ notes db -> note_id n < notes_id_seq db.
Proof.
  intros [_ Hall] Hn. rewrite Forall_forall in Hall. by destruct (Hall n Hn).
Qed.

(** No row matches the id of a note together with a user who is not its owner. *)
Lemma foreign_no_row (db : Db) (n : Note) (u : Z) :
  notes_pkey db -> n ∈ notes db -> u ≠ note_userId n ->
  ∀ x, x ∈ notes db -> ¬ id_and_owner (note_id n) u x.
Proof.
  intros [Hnd _] Hn Hu x Hx [Hid Hown].
  assert (x = n) as -> by (eapply pkey_unique; eauto).
  congruence.
Qed.

(** *** What [updateNote] and [deleteNote] do for a user who is not the owner *)

Lemma deleteNote_foreign (db : Db) (n : Note) (u : Z) :
  notes_pkey db -> n ∈ notes db -> u ≠ note_userId n ->
  deleteNote (Some (note_id n)) u db = (Return false, db).
Proof.
  intros Hpk Hn Hu. unfold deleteNote.
  rewrite decide_True by by eapply pkey_int4.
  rewrite (filter_none (id_and_owner (note_id n) u)) by by apply foreign_no_row.
  rewrite filter_all by by apply foreign_no_row.
  by rewrite with_notes_same.
Qed.

Lemma updateNote_foreign (db : Db) (n : Note) (u : Z) (upd : PartialInsertNote) :
  notes_pkey db -> n ∈ notes db -> u ≠ note_userId n ->
  executable upd ->
  updateNote (Some (note_id n)) u upd db = (Return None, db).
Proof.
  intros Hpk Hn Hu (Hv & Ht & [c Hc] & [d Hd]). unfold updateNote.
  rewrite Hv, Ht, Hc, Hd. rewrite decide_True by by eapply pkey_int4.
  rewrite (filter_none (id_and_owner (note_id n) u)) by by apply foreign_no_row.
  rewrite filter_all by by apply foreign_no_row.
  simpl. rewrite app_nil_r. by rewrite with_notes_same.
Qed.

(** An update the database does not execute throws and changes nothing. *)
Lemma updateNote_not_executable (db : Db) (id : option Z) (u : Z) (upd : PartialInsertNote) :
  ¬ executable upd ->
  ∃ message, updateNote id u upd db = (Throw (Error message), db).
Proof.
  intros Hne. unfold updateNote, executable in *.
  destruct (no_values upd); [eauto|].
  destruct id as [id|]; [|eauto].
  case_decide; [|eauto].
  destruct (text_param (set_title upd)); [|eauto].
  destruct (date_param (set_createdDate upd)) as [c|] eqn:Hc; [|eauto].
  destruct (date_param (set_completedDate upd)) as [d|] eqn:Hd; [|eauto].
  destruct Hne. eauto.
Qed.

Lemma executable_dec (upd : PartialInsertNote) : executable upd ∨ ¬ executable upd.
Proof.
  unfold executable.
  destruct (no_values upd); [right; intros (? & _); done|].
  destruct (text_param (set_title upd)); [|right; intros (_ & ? & _); done].
  destruct (date_param (set_createdDate upd)); [|right; intros (_ & _ & [? ?] & _); done].
  destruct (date_param (set_completedDate upd)); [|right; intros (_ & _ & _ & [? ?]); done].
  left. eauto.
Qed.

Lemma PUT_notes_id_run (w : World) (u : Z) (params_id : string) (body : json) :
  userId (w_session w) = Some u -> u ≠ 0 ->
  handle (UpdateNote params_id body) w
  = match insertNoteSchema_partial body with
    | failure issues => (Return (validation_error issues), w)
    | success upd =>
        match updateNote (parseInt params_id) u upd (w_db w) with
        | (Return None, db') => (Return note_not_found, world db' (w_session w))
        | (Return (Some row), db') =>
            (Return (note_response row), world db' (w_session w))
        | (Throw (Error _), db') =>
            (Return (internal_error "Erro ao atualizar anotação"), world db' (w_session w))
        | (Throw (ZodError issues), db') =>
            (Return (validation_error issues), world db' (w_session w))
        end
    end.
Proof.
  intros Hs Hu. simpl. unfold PUT_notes_id.
  rewrite (requireAuth_authenticated _ _ u) by done.
  run. destruct (insertNoteSchema_partial body) as [upd|issues]; simpl.
  - destruct (updateNote (parseInt params_id) u upd (w_db w)) as [[[row|]|[issues|msg]] db'];
      simpl; try done.
  - done.
Qed.

Lemma DELETE_notes_id_run (w : World) (u : Z) (params_id : string) :
  userId (w_session w) = Some u -> u ≠ 0 ->
  handle (DeleteNote params_id) w
  = match deleteNote (parseInt params_id) u (w_db w) with
    | (Return false, db') => (Return note_not_found, world db' (w_session w))
    | (Return true, db') =>
        (Return {| res_status := 200; res_body := message_json "Anotação excluída com sucesso" |},
         world db' (w_session w))
    | (Throw _, db') =>
        (Return (internal_error "Erro ao excluir anotação"), world db' (w_session w))
    end.
Proof.
  intros Hs Hu. simpl. unfold DELETE_notes_id.
  rewrite (requireAuth_authenticated _ _ u) by done.
  run. destruct (deleteNote (parseInt params_id) u (w_db w)) as [[[|]|e] db']; done.
Qed.

(** C1 (as amended). For every note [n] of a database that respects the
    primary key and every authenticated user [u] who is not its owner,
    acting on [n]'s id: [deleteNote] returns [false] and the DELETE handler
    answers 404; [updateNote] returns no row for every update the database
    executes (there is a value to set, a supplied title has no character
    U+0000, the supplied dates are dates), and the PUT handler answers 404
    when the body passes validation and carries such an update; a body that
    fails validation is answered 400 (ValidationError) before the store is
    consulted; and whatever the body, the PUT handler answers 400, 404 or
    500, never a success.  In every case the database and the session are
    left as they were: no note is modified or removed. *)
Theorem non_owner_update_delete_not_found
    (w : World) (n : Note) (u : Z) (params_id : string) :
  notes_pkey (w_db w) ->
  n ∈ notes (w_db w) ->
  userId (w_session w) = Some u -> u ≠ 0 ->
  u ≠ note_userId n ->
  parseInt params_id = Some (note_id n) ->
  deleteNote (Some (note_id n)) u (w_db w) = (Return false, w_db w)
  ∧ handle (DeleteNote params_id) w = (Return note_not_found, w)
  ∧ (∀ upd, executable upd ->
       updateNote (Some (note_id n)) u upd (w_db w) = (Return None, w_db w))
  ∧ (∀ body upd, insertNoteSchema_partial body = success upd -> executable upd ->
       handle (UpdateNote params_id body) w = (Return note_not_found, w))
  ∧ (∀ body issues, insertNoteSchema_partial body = failure issues ->
       handle (UpdateNote params_id body) w = (Return (validation_error issues), w))
  ∧ (∀ body, ∃ resp,
       handle (UpdateNote params_id body) w = (Return resp, w)
       ∧ (res_status resp = 400 ∨ res_status resp = 404 ∨ res_status resp = 500)).
Proof.
  intros Hpk Hn Hs Hu Hown Hid.
  assert (Hdel := deleteNote_foreign _ _ _ Hpk Hn Hown).
  assert (Hupd := λ upd, updateNote_foreign _ _ _ upd Hpk Hn Hown).
  split; [done|]. split.
  { rewrite (DELETE_notes_id_run _ u) by done. rewrite Hid, Hdel.
    unfold world. by rewrite world_eta. }
  split; [done|]. split.
  { intros body upd Hb Hx. rewrite (PUT_notes_id_run _ u) by done.
    rewrite Hb, Hid, (Hupd upd Hx). unfold world. by rewrite world_eta. }
  split.
  { intros body issues Hb. rewrite (PUT_notes_id_run _ u) by done. by rewrite Hb. }
  intros body. rewrite (PUT_notes_id_run _ u) by done.
  destruct (insertNoteSchema_partial body) as [upd|issues].
  - destruct (executable_dec upd) as [Hx|Hx].
    + rewrite Hid, (Hupd upd Hx). unfold world. rewrite world_eta.
      eexists. split; [done|]. simpl. auto.
    + destruct (updateNote_not_executable (w_db w) (parseInt params_id) u upd Hx) as [e ->].
      unfold world. rewrite world_eta. eexists. split; [done|]. simpl. auto.
  - eexists. split; [done|]. simpl. auto.
Qed.

(** *** Validation *)

Lemma z_string_success (checks : list StringCheck) (path : list string)
    (v : option json) (s : string) :
  z_string checks path v = success s
  <-> v = Some (JStr s) ∧ flat_map (run_check path s) checks = [].
Proof.
  unfold z_string. split.
  - destruct v as [[| | |s'| |]|]; try discriminate.
    destruct (flat_map (run_check path s') checks) eqn:E; [|discriminate].
    intros [= ->]. done.
  - intros [-> ->]. done.
Qed.

Lemma z_string_failure (checks : list StringCheck) (path : list string)
    (v : option json) (issues : list ZodIssue) :
  z_string checks path v = failure issues ->
  issues ≠ [] ∧ Forall (λ i, issue_path i = path) issues.
Proof.
  unfold z_string.
  assert (∀ s, Forall (λ i, issue_path i = path) (flat_map (run_check path s) checks)) as Hall.
  { intros s. induction checks as [|c cs IH]; simpl; [constructor|].
    apply Forall_app. split; [|done].
    destruct c; simpl; [destruct (_ <? _)%nat|destruct (is_email s)]; repeat constructor. }
  destruct v as [[| | |s| |]|]; try (intros [= <-]; split; [done|by repeat constructor]).
  destruct (flat_map (run_check path s) checks) eqn:E; [discriminate|].
  intros [= <-]. split; [done|]. rewrite <- E. apply Hall.
Qed.

Lemma loginSchema_success (body : json) (data : LoginUser) :
  loginSchema body = success data
  <-> ∃ o, body = JObj o
        ∧ o !! "email" = Some (JStr (lu_email data))
        ∧ is_email (lu_email data) = true
        ∧ o !! "password" = Some (JStr (lu_password data))
        ∧ lu_password data ≠ "".
Proof.
  unfold loginSchema. split.
  - destruct body as [| | | | |o]; try discriminate.
    destruct (z_string _ ["email"] _) as [e|] eqn:He;
      destruct (z_string _ ["password"] _) as [p|] eqn:Hp; try discriminate.
    intros [= <-]. simpl.
    apply z_string_success in He as [He He'], Hp as [Hp Hp']. simpl in *.
    exists o. repeat split; try done.
    + by destruct (is_email e).
    + intros ->. done.
  - intros (o & -> & He & He' & Hp & Hp'). destruct data as [e p]. simpl in *.
    rewrite He, Hp. unfold z_string. simpl. rewrite He'. simpl.
    destruct p; [done|]. done.
Qed.

(** *** Login *)

Lemma POST_auth_login_run (body : json) (w : World) :
  handle (Login body) w
  = match loginSchema body with
    | failure issues => (Return (validation_error issues), w)
    | success data =>
        match getUserByEmail (lu_email data) (w_db w) with
        | (Return None, _) => (Return invalid_credentials, w)
        | (Return (Some user), _) =>
            if bcrypt_compare (lu_password data) (user_password user)
            then (Return (profile_response user), world (w_db w) (signed_in (user_id user)))
            else (Return invalid_credentials, w)
        | (Throw _, _) => (Return (internal_error "Erro interno do servidor"), w)
        end
    end.
Proof.
  simpl. unfold POST_auth_login. run.
  destruct (loginSchema body) as [data|issues]; simpl; [|done].
  unfold getUserByEmail. simpl.
  destruct (head _) as [user|]; simpl; rewrite ?world_eta; [|done].
  destruct (bcrypt_compare _ _); simpl; by rewrite ?world_eta.
Qed.

(** C2. For every login request: the handler answers with success exactly
    when the body carries an email and a password (the fields the login
    schema reads), a user with that email exists and [bcrypt.compare]
    accepts the password against that user's stored hash; on success the
    session is bound to that user.  The two ways for credentials to fail, an
    email that no user has and a password that does not match, give the
    same result: the one response [invalid_credentials] (401, "Email ou
    senha inválidos"), with the database and the session unchanged.  For a
    request whose email and password are strings, over a database whose
    stored emails have the form registration requires and whose stored
    hashes do not accept the empty password, success is equivalent to the
    existence of the user and the match of the password alone. *)
Theorem login_iff_credentials_match (body : json) (w : World) :
  ((∃ resp w', handle (Login body) w = (Return resp, w') ∧ res_status resp = 200)
   <-> ∃ data user,
         loginSchema body = success data
         ∧ getUserByEmail (lu_email data) (w_db w) = (Return (Some user), w_db w)
         ∧ bcrypt_compare (lu_password data) (user_password user) = true)
  ∧ (∀ data user,
       loginSchema body = success data ->
       getUserByEmail (lu_email data) (w_db w) = (Return (Some user), w_db w) ->
       bcrypt_compare (lu_password data) (user_password user) = true ->
       handle (Login body) w
       = (Return (profile_response user), world (w_db w) (signed_in (user_id user))))
  ∧ (∀ data,
       loginSchema body = success data ->
       getUserByEmail (lu_email data) (w_db w) = (Return None, w_db w) ->
       handle (Login body) w = (Return invalid_credentials, w))
  ∧ (∀ data user,
       loginSchema body = success data ->
       getUserByEmail (lu_email data) (w_db w) = (Return (Some user), w_db w) ->
       bcrypt_compare (lu_password data) (user_password user) = false ->
       handle (Login body) w = (Return invalid_credentials, w))
  ∧ (∀ data, loginSchema body = success data ->
       ∃ o, body = JObj o
            ∧ o !! "email" = Some (JStr (lu_email data))
            ∧ o !! "password" = Some (JStr (lu_password data)))
  ∧ (∀ o email password,
       body = JObj o ->
       o !! "email" = Some (JStr email) ->
       o !! "password" = Some (JStr password) ->
       Forall (λ x, is_email (user_email x) = true
                    ∧ bcrypt_compare "" (user_password x) = false) (users (w_db w)) ->
       ((∃ resp w', handle (Login body) w = (Return resp, w') ∧ res_status resp = 200)
        <-> ∃ user,
              getUserByEmail email (w_db w) = (Return (Some user), w_db w)
              ∧ bcrypt_compare password (user_password user) = true)).
Proof.
  rewrite POST_auth_login_run.
  assert ((∃ resp w',
             match loginSchema body with
             | success data =>
                 match getUserByEmail (lu_email data) (w_db w) with
                 | (Return (Some user), _) =>
                     if bcrypt_compare (lu_password data) (user_password user)
                     then (Return (profile_response user),
                           world (w_db w) (signed_in (user_id user)))
                     else (Return invalid_credentials, w)
                 | (Return None, _) => (Return invalid_credentials, w)
                 | (Throw _, _) => (Return (internal_error "Erro interno do servidor"), w)
                 end
             | failure issues => (Return (validation_error issues), w)
             end = (Return resp, w') ∧ res_status resp = 200)
          <-> ∃ data user,
                loginSchema body = success data
                ∧ getUserByEmail (lu_email data) (w_db w) = (Return (Some user), w_db w)
                ∧ bcrypt_compare (lu_password data) (user_password user) = true) as Hiff.
  { split.
    - intros (resp & w' & Hrun & Hok).
      destruct (loginSchema body) as [data|issues]; [|by inversion Hrun; subst].
      exists data. unfold getUserByEmail in *. simpl in *.
      destruct (head _) as [user|]; [|by inversion Hrun; subst].
      exists user.
      destruct (bcrypt_compare _ _); [done|by inversion Hrun; subst].
    - intros (data & user & -> & Hu & Hc). rewrite Hu, Hc. eexists _, _. done. }
  split; [exact Hiff|].
  split; [by intros data user -> -> ->|].
  split; [by intros data -> ->|].
  split; [by intros data user -> -> ->|].
  split.
  { intros data Hd. apply loginSchema_success in Hd as (o & ? & ? & _ & ? & _). eauto. }
  intros o email password -> He Hp Hstored. rewrite Hiff. split.
  - intros (data & user & Hd & Hu & Hc).
    apply loginSchema_success in Hd as (o' & [= <-] & He' & _ & Hp' & _).
    assert (lu_email data = email) as <- by congruence.
    assert (lu_password data = password) as <- by congruence.
    eauto.
  - intros (user & Hu & Hc).
    exists {| lu_email := email; lu_password := password |}, user.
    split; [|done]. apply loginSchema_success. exists o. simpl.
    unfold getUserByEmail in Hu. injection Hu as Hu.
    apply head_filter_inv in Hu as [Hin Hemail].
    rewrite Forall_forall in Hstored. destruct (Hstored user Hin) as [Hvalid Hempty].
    repeat split; try done; [congruence|].
    intros ->. congruence.
Qed.

(** *** Creating notes *)

Lemma z_enum_status_success (path : list string) (v : option json) (st : NoteStatus) :
  z_enum_status path v = success st <-> v = Some (JStr (status_text st)).
Proof.
  unfold z_enum_status. split.
  - destruct v as [[| | |s| |]|]; try discriminate.
    repeat case_decide; intros [= <-]; by subst.
  - intros ->. by destruct st.
Qed.

Lemma length_lt_1 (s : string) : (String.length s <? 1)%nat = false <-> s ≠ "".
Proof. destruct s; simpl; split; try done. Qed.

Lemma min_1_passes (path : list string) (message : string) (s : string) :
  flat_map (run_check path s) [check_min 1 message] = [] <-> s ≠ "".
Proof.
  simpl. rewrite <- length_lt_1. destruct (_ <? _)%nat; simpl; split; done.
Qed.

Lemma insertNoteSchema_success (body : json) (input : InsertNote) :
  insertNoteSchema body = success input
  <-> ∃ o, body = JObj o
        ∧ o !! "title" = Some (JStr (in_title input))
        ∧ in_title input ≠ ""
        ∧ o !! "createdDate" = Some (JStr (in_createdDate input))
        ∧ o !! "completedDate" = Some (JStr (in_completedDate input))
        ∧ in_completedDate input ≠ ""
        ∧ o !! "status" = Some (JStr (status_text (in_status input))).
Proof.
  unfold insertNoteSchema, title_schema, createdDate_schema, completedDate_schema. split.
  - destruct body as [| | | | |o]; try discriminate.
    destruct (z_string _ ["title"] _) as [t|] eqn:Ht;
      destruct (z_string _ ["createdDate"] _) as [c|] eqn:Hc;
      destruct (z_string _ ["completedDate"] _) as [d|] eqn:Hd;
      destruct (z_enum_status ["status"] _) as [s|] eqn:Hs; try discriminate.
    intros [= <-]. simpl.
    apply z_string_success in Ht as [Ht Ht'], Hc as [Hc _], Hd as [Hd Hd'].
    apply min_1_passes in Ht', Hd'. apply z_enum_status_success in Hs.
    exists o. done.
  - intros (o & -> & Ht & Ht' & Hc & Hd & Hd' & Hs). destruct input as [t c d s]. simpl in *.
    assert (z_string [check_min 1 "Nome da tarefa é obrigatório"] ["title"] (o !! "title")
            = success t) as ->
      by (apply z_string_success; split; [done|by apply min_1_passes]).
    assert (z_string [] ["createdDate"] (o !! "createdDate") = success c) as ->
      by (by apply z_string_success).
    assert (z_string [check_min 1 "Data de conclusão é obrigatória"] ["completedDate"]
              (o !! "completedDate") = success d) as ->
      by (apply z_string_success; split; [done|by apply min_1_passes]).
    assert (z_enum_status ["status"] (o !! "status") = success s) as ->
      by (by apply z_enum_status_success).
    done.
Qed.

(** The schema reads four keys of the body and no other. *)
Lemma insertNoteSchema_reads (o1 o2 : gmap string json) :
  (∀ k, k ∈ ["title"; "createdDate"; "completedDate"; "status"] -> o1 !! k = o2 !! k) ->
  insertNoteSchema (JObj o1) = insertNoteSchema (JObj o2).
Proof.
  intros Hk. unfold insertNoteSchema.
  rewrite (Hk "title"), (Hk "createdDate"), (Hk "completedDate"), (Hk "status");
    [done|repeat first [apply list_elem_of_here|apply list_elem_of_further]..].
Qed.

Lemma userId_not_read : "userId" ∉ ["title"; "createdDate"; "completedDate"; "status"].
Proof.
  intros Hk. repeat (apply elem_of_cons in Hk as [Hk|Hk]; [discriminate|]).
  by apply elem_of_nil in Hk.
Qed.

Lemma POST_notes_run (w : World) (u : Z) (body : json) :
  userId (w_session w) = Some u -> u ≠ 0 ->
  handle (CreateNote body) w
  = match insertNoteSchema body with
    | failure issues => (Return (validation_error issues), w)
    | success input =>
        match createNote input u (w_db w) with
        | (Return note, db') => (Return (note_response note), world db' (w_session w))
        | (Throw (Error _), db') =>
            (Return (internal_error "Erro ao criar anotação"), world db' (w_session w))
        | (Throw (ZodError issues), db') =>
            (Return (validation_error issues), world db' (w_session w))
        end
    end.
Proof.
  intros Hs Hu. simpl. unfold POST_notes.
  rewrite (requireAuth_authenticated _ _ u) by done.
  run. destruct (insertNoteSchema body) as [input|issues]; simpl; [|done].
  destruct (createNote input u (w_db w)) as [[note|[issues|msg]] db']; done.
Qed.

(** [createNote] inserts the row; or it is refused when its values are
    bound, and nothing changes; or it is refused by a constraint, and a
    value of the sequence is used up. *)
Lemma createNote_cases (db : Db) (u : Z) (input : InsertNote) :
  (∃ c d, text_in (in_title input) = true
          ∧ date_in (in_createdDate input) = Some c
          ∧ date_in (in_completedDate input) = Some d
          ∧ int4 (notes_id_seq db)
          ∧ Exists (λ x, user_id x = u) (users db)
          ∧ ¬ Exists (λ n, note_id n = notes_id_seq db) (notes db)
          ∧ createNote input u db
            = (Return (inserted db u input c d),
               with_notes db (notes db ++ [inserted db u input c d]) (notes_id_seq db + 1)))
  ∨ ((text_in (in_title input) = false
      ∨ date_in (in_createdDate input) = None
      ∨ date_in (in_completedDate input) = None
      ∨ ¬ int4 (notes_id_seq db))
     ∧ ∃ message, createNote input u db = (Throw (Error message), db))
  ∨ ((¬ Exists (λ x, user_id x = u) (users db)
      ∨ Exists (λ n, note_id n = notes_id_seq db) (notes db))
     ∧ ∃ message,
         createNote input u db
         = (Throw (Error message), with_notes db (notes db) (notes_id_seq db + 1))).
Proof.
  unfold createNote, inserted.
  destruct (text_in (in_title input)); [|right; left; eauto].
  destruct (date_in (in_createdDate input)) as [c|]; [|right; left; eauto].
  destruct (date_in (in_completedDate input)) as [d|]; [|right; left; eauto 6].
  case_decide; [|right; left; eauto 6].
  case_decide; [|right; right; eauto].
  case_decide; [right; right; eauto|left; eauto 12].
Qed.

(** The sequence has not issued its next value yet. *)
Lemma pkey_fresh (db : Db) :
  notes_pkey db -> ¬ Exists (λ n, note_id n = notes_id_seq db) (notes db).
Proof.
  intros Hpk Hex. apply Exists_exists in Hex as (n & Hn & Hid).
  pose proof (pkey_issued _ _ Hpk Hn). lia.
Qed.

Lemma POST_notes_success (w : World) (body : json) (resp : Response) (w' : World) :
  handle (CreateNote body) w = (Return resp, w') ->
  res_status resp = 200 ->
  ∃ u input c d,
    userId (w_session w) = Some u ∧ u ≠ 0
    ∧ insertNoteSchema body = success input
    ∧ date_in (in_createdDate input) = Some c
    ∧ date_in (in_completedDate input) = Some d
    ∧ Exists (λ x, user_id x = u) (users (w_db w))
    ∧ resp = note_response (inserted (w_db w) u input c d)
    ∧ w' = world (with_notes (w_db w) (notes (w_db w) ++ [inserted (w_db w) u input c d])
                             (notes_id_seq (w_db w) + 1))
                 (w_session w)
    ∧ text_in (in_title input) = true
    ∧ int4 (notes_id_seq (w_db w)).
Proof.
  intros Hrun Hok.
  destruct (userId (w_session w)) as [u|] eqn:Hs; cycle 1.
  { simpl in Hrun. unfold POST_notes in Hrun.
    rewrite requireAuth_unauthenticated in Hrun by done. by inversion Hrun; subst. }
  destruct (decide (u = 0)) as [->|Hu].
  { simpl in Hrun. unfold POST_notes, requireAuth in Hrun. rewrite Hs in Hrun.
    simpl in Hrun. by inversion Hrun; subst. }
  rewrite (POST_notes_run _ u) in Hrun by done.
  destruct (insertNoteSchema body) as [input|issues]; [|by inversion Hrun; subst].
  destruct (createNote_cases (w_db w) u input)
    as [(c & d & Ht & Hc & Hd & Hseq & Hfk & _ & Hcreate)
       |[(_ & message & Hcreate)|(_ & message & Hcreate)]];
    rewrite Hcreate in Hrun; [|by inversion Hrun; subst..].
  inversion Hrun; subst. exists u, input, c, d. done.
Qed.

(** C3. For every create-note request, the note that is persisted and
    returned is owned by the user of the session, whatever the body says:
    a successful create appends one note whose [userId] is the session's
    user id; validation drops a [userId] key of the body; and two requests
    whose bodies differ only in that key have the same outcome. *)
Theorem create_owner_from_session (w : World) :
  (∀ body resp w',
     handle (CreateNote body) w = (Return resp, w') ->
     res_status resp = 200 ->
     ∃ u note,
       userId (w_session w) = Some u
       ∧ resp = note_response note
       ∧ note_userId note = u
       ∧ notes (w_db w') = notes (w_db w) ++ [note])
  ∧ (∀ o v, insertNoteSchema (JObj (<["userId" := v]> o)) = insertNoteSchema (JObj o))
  ∧ (∀ o1 o2,
       (∀ k, k ≠ "userId" -> o1 !! k = o2 !! k) ->
       handle (CreateNote (JObj o1)) w = handle (CreateNote (JObj o2)) w).
Proof.
  split; [|split].
  - intros body resp w' Hrun Hok.
    destruct (POST_notes_success _ _ _ _ Hrun Hok)
      as (u & input & c & d & Hs & _ & _ & _ & _ & _ & -> & -> & _).
    exists u, (inserted (w_db w) u input c d). done.
  - intros o v. apply insertNoteSchema_reads. intros k Hk.
    apply lookup_insert_ne. intros <-. by apply userId_not_read.
  - intros o1 o2 Hk. simpl. unfold POST_notes.
    rewrite (insertNoteSchema_reads o1 o2); [done|].
    intros k Hk'. apply Hk. intros ->. by apply userId_not_read.
Qed.

(** C6 (as amended). Round trip: for an authenticated user [u] (a user of
    the database, whose sequence of note ids has a value left) and a note
    input that passes validation and that the database accepts (a title
    without the character U+0000, two dates that the [date] column accepts),
    create answers with a note that has the submitted title and status, the
    two dates as the [date] column reads them back ([c] and [d], which are
    the submitted texts only when these are already in the form the column
    renders), the owner [u] and the next id of the sequence; and list, for
    the same session, then answers with a list that contains that note, and
    no other note under that id. *)
Theorem create_then_list
    (w : World) (u : Z) (body : json) (input : InsertNote) (c d : string) :
  notes_pkey (w_db w) ->
  userId (w_session w) = Some u -> u ≠ 0 ->
  Exists (λ x, user_id x = u) (users (w_db w)) ->
  int4 (notes_id_seq (w_db w)) ->
  insertNoteSchema body = success input ->
  text_in (in_title input) = true ->
  date_in (in_createdDate input) = Some c ->
  date_in (in_completedDate input) = Some d ->
  ∃ note w1 listed,
    handle (CreateNote body) w = (Return (note_response note), w1)
    ∧ note_id note = notes_id_seq (w_db w)
    ∧ note_userId note = u
    ∧ note_title note = in_title input
    ∧ note_createdDate note = c
    ∧ note_completedDate note = d
    ∧ note_status note = in_status input
    ∧ handle ListNotes w1
      = (Return {| res_status := 200; res_body := JArr (note_json <$> listed) |}, w1)
    ∧ note ∈ listed
    ∧ (∀ m, m ∈ listed -> note_id m = note_id note -> m = note)
    ∧ (date_in (in_createdDate input) = Some (in_createdDate input) ->
       note_createdDate note = in_createdDate input)
    ∧ (date_in (in_completedDate input) = Some (in_completedDate input) ->
       note_completedDate note = in_completedDate input).
Proof.
  intros Hpk Hs Hu Hfk Hseq Hbody Ht Hc Hd.
  set (note := inserted (w_db w) u input c d).
  set (w1 := world (with_notes (w_db w) (notes (w_db w) ++ [note]) (notes_id_seq (w_db w) + 1))
                   (w_session w)).
  exists note, w1, (filter (λ n, note_userId n = u) (notes (w_db w1))).
  split.
  { rewrite (POST_notes_run _ u) by done. rewrite Hbody.
    destruct (createNote_cases (w_db w) u input)
      as [(c' & d' & _ & Hc' & Hd' & _ & _ & _ & ->)
         |[([?|[?|[?|?]]] & _)|([?|Hdup] & _)]]; [|congruence..| |].
    - assert (c' = c) as -> by congruence. assert (d' = d) as -> by congruence. done.
    - done.
    - by apply pkey_fresh in Hdup. }
  repeat (split; [done|]). split.
  { simpl. unfold GET_notes. rewrite (requireAuth_authenticated _ _ u) by done.
    by run. }
  split.
  { apply list_elem_of_filter. split; [done|].
    simpl. apply elem_of_app. right. apply list_elem_of_here. }
  split.
  { intros m Hm Hid. apply list_elem_of_filter in Hm as [_ Hm]. simpl in Hm.
    apply elem_of_app in Hm as [Hm|Hm].
    - pose proof (pkey_issued _ _ Hpk Hm) as Hlt. simpl in Hid. lia.
    - by apply list_elem_of_singleton in Hm. }
  split; intros Hsame; simpl; congruence.
Qed.

(** C8 (as amended). Create validates before it persists, and validation is
    what the schema checks: a body passes exactly when it is an object whose
    [title] is a non-empty string, whose [status] is one of the two enum
    values, whose [createdDate] is a string and whose [completedDate] is a
    non-empty string; a body that does not pass is answered ValidationError
    (400).  Whether a date is a calendar date, and whether the title is a
    text the column can hold, is decided by the database: a body that passes
    validation with a date the [date] column refuses, or with a title that
    contains the character U+0000, is answered InternalError (500).  For an
    authenticated user of the database, whose sequence of note ids has a
    value left, the note is accepted exactly when the body passes
    validation, the title has no character U+0000 and both dates are
    calendar dates; in each of these failure cases nothing is persisted. *)
Theorem create_validates_then_persists (w : World) (u : Z) (body : json) :
  notes_pkey (w_db w) ->
  userId (w_session w) = Some u -> u ≠ 0 ->
  Exists (λ x, user_id x = u) (users (w_db w)) ->
  int4 (notes_id_seq (w_db w)) ->
  ((∃ input, insertNoteSchema body = success input)
   <-> ∃ o title createdDate completedDate status,
         body = JObj o
         ∧ o !! "title" = Some (JStr title) ∧ title ≠ ""
         ∧ o !! "createdDate" = Some (JStr createdDate)
         ∧ o !! "completedDate" = Some (JStr completedDate) ∧ completedDate ≠ ""
         ∧ o !! "status" = Some (JStr (status_text status)))
  ∧ (∀ issues, insertNoteSchema body = failure issues ->
       handle (CreateNote body) w = (Return (validation_error issues), w))
  ∧ (∀ input, insertNoteSchema body = success input ->
       text_in (in_title input) = false
       ∨ date_in (in_createdDate input) = None ∨ date_in (in_completedDate input) = None ->
       handle (CreateNote body) w = (Return (internal_error "Erro ao criar anotação"), w))
  ∧ (∀ input c d, insertNoteSchema body = success input ->
       text_in (in_title input) = true ->
       date_in (in_createdDate input) = Some c ->
       date_in (in_completedDate input) = Some d ->
       handle (CreateNote body) w
       = (Return (note_response (inserted (w_db w) u input c d)),
          world (with_notes (w_db w) (notes (w_db w) ++ [inserted (w_db w) u input c d])
                            (notes_id_seq (w_db w) + 1))
                (w_session w)))
  ∧ ((∃ resp w', handle (CreateNote body) w = (Return resp, w') ∧ res_status resp = 200)
     <-> ∃ input, insertNoteSchema body = success input
                  ∧ text_in (in_title input) = true
                  ∧ is_Some (date_in (in_createdDate input))
                  ∧ is_Some (date_in (in_completedDate input))).
Proof.
  intros Hpk Hs Hu Hfk Hseq. apply pkey_fresh in Hpk.
  assert (∀ input c d, insertNoteSchema body = success input ->
       text_in (in_title input) = true ->
       date_in (in_createdDate input) = Some c ->
       date_in (in_completedDate input) = Some d ->
       handle (CreateNote body) w
       = (Return (note_response (inserted (w_db w) u input c d)),
          world (with_notes (w_db w) (notes (w_db w) ++ [inserted (w_db w) u input c d])
                            (notes_id_seq (w_db w) + 1))
                (w_session w))) as Haccept.
  { intros input c d Hb Ht Hc Hd. rewrite (POST_notes_run _ u) by done. rewrite Hb.
    destruct (createNote_cases (w_db w) u input)
      as [(c' & d' & _ & Hc' & Hd' & _ & _ & _ & ->)
         |[([?|[?|[?|?]]] & _)|([?|?] & _)]]; [|congruence..|done|done].
    assert (c' = c) as -> by congruence. assert (d' = d) as -> by congruence. done. }
  split; [|split; [|split; [|split; [done|]]]].
  - split.
    + intros [input Hb]. apply insertNoteSchema_success in Hb as (o & ? & ? & ? & ? & ? & ? & ?).
      eauto 12.
    + intros (o & t & c & d & s & -> & Ht & Ht' & Hc & Hd & Hd' & Hst).
      exists {| in_title := t; in_createdDate := c; in_completedDate := d; in_status := s |}.
      apply insertNoteSchema_success. exists o. done.
  - intros issues Hb. rewrite (POST_notes_run _ u) by done. by rewrite Hb.
  - intros input Hb Hrefused. rewrite (POST_notes_run _ u) by done. rewrite Hb.
    destruct (createNote_cases (w_db w) u input)
      as [(c & d & Ht & Hc & Hd & _)|[(_ & message & ->)|([?|?] & _)]]; [| |done..].
    + destruct Hrefused as [?|[?|?]]; congruence.
    + unfold world. by rewrite world_eta.
  - split.
    + intros (resp & w' & Hrun & Hok).
      destruct (POST_notes_success _ _ _ _ Hrun Hok)
        as (_ & input & c & d & _ & _ & Hb & Hc & Hd & _ & _ & _ & Ht & _).
      exists input. rewrite Hc, Hd. eauto.
    + intros (input & Hb & Ht & [c Hc] & [d Hd]).
      rewrite (Haccept input c d) by done. eexists _, _. done.
Qed.

(** *** Registration *)

Lemma z_string_one_check (c : StringCheck) (path : list string) (s : string) :
  z_string [c] path (Some (JStr s))
  = match run_check path s c with
    | [] => success s
    | issues => failure issues
    end.
Proof. unfold z_string. simpl. by rewrite app_nil_r. Qed.

Lemma insertUserSchema_success (body : json) (data : InsertUser) :
  insertUserSchema body = success data
  <-> ∃ o, body = JObj o
        ∧ o !! "name" = Some (JStr (iu_name data))
        ∧ o !! "email" = Some (JStr (iu_email data))
        ∧ o !! "password" = Some (JStr (iu_password data))
        ∧ offending_fields (iu_name data) (iu_email data) (iu_password data) = [].
Proof.
  unfold insertUserSchema, offending_fields. split.
  - destruct body as [| | | | |o]; try discriminate.
    destruct (z_string _ ["name"] _) as [n|] eqn:Hn;
      destruct (z_string _ ["email"] _) as [e|] eqn:He;
      destruct (z_string _ ["password"] _) as [p|] eqn:Hp; try discriminate.
    intros [= <-]. simpl.
    apply z_string_success in Hn as [Hn Hn'], He as [He He'], Hp as [Hp Hp'].
    apply min_1_passes in Hn'. simpl in He', Hp'.
    exists o. repeat split; try done.
    destruct (decide (n = "")); [done|]. destruct (is_email e); [|done].
    destruct (decide (_ < _)%nat) as [Hlt|]; [|done].
    apply Nat.ltb_lt in Hlt. by rewrite Hlt in Hp'.
  - intros (o & -> & Hn & He & Hp & Hoff). destruct data as [n e p]. simpl in *.
    rewrite Hn, He, Hp, !z_string_one_check. simpl.
    destruct (decide (n = "")) as [|Hn']; [done|].
    destruct (is_email e); [|done].
    destruct (decide (_ < _)%nat) as [|Hp']; [done|].
    apply length_lt_1 in Hn'. rewrite Hn'.
    apply Nat.ltb_nlt in Hp'. by rewrite Hp'.
Qed.

(** The issues of a registration whose three fields are strings name the
    offending fields, in the order of the columns. *)
Lemma insertUserSchema_offending (o : gmap string json) (name email password : string) :
  o !! "name" = Some (JStr name) ->
  o !! "email" = Some (JStr email) ->
  o !! "password" = Some (JStr password) ->
  offending_fields name email password ≠ [] ->
  ∃ issues,
    insertUserSchema (JObj o) = failure issues
    ∧ issue_path <$> issues = (λ field, [field]) <$> offending_fields name email password.
Proof.
  intros Hn He Hp. unfold insertUserSchema, offending_fields.
  rewrite Hn, He, Hp, !z_string_one_check. simpl.
  destruct (decide (name = "")) as [->|Hn']; simpl.
  - intros _. destruct (is_email email); simpl;
      (destruct (decide (_ < _)%nat) as [Hlt|Hlt];
       [apply Nat.ltb_lt in Hlt|apply Nat.ltb_nlt in Hlt]; rewrite Hlt; simpl; eauto).
  - apply length_lt_1 in Hn'. rewrite Hn'. simpl.
    destruct (is_email email); simpl;
      (destruct (decide (_ < _)%nat) as [Hlt|Hlt];
       [apply Nat.ltb_lt in Hlt|apply Nat.ltb_nlt in Hlt]; rewrite Hlt; simpl; eauto).
    done.
Qed.

Lemma POST_auth_register_run (salt : string) (body : json) (w : World) :
  handle (Register salt body) w
  = match insertUserSchema body with
    | failure issues => (Return (validation_error issues), w)
    | success data =>
        match head (filter (λ x, user_email x = iu_email data) (users (w_db w))) with
        | Some _ => (Return duplicate_email, w)
        | None =>
            if text_in (iu_name data) && text_in (iu_email data)
               && text_in (bcrypt_hash (iu_password data) 10 salt)
            then
              if decide (int4 (users_id_seq (w_db w)))
              then
                if decide (Exists (λ x, user_id x = users_id_seq (w_db w)) (users (w_db w)))
                then (Return (internal_error "Erro interno do servidor"),
                      world (with_users (w_db w) (users (w_db w)) (users_id_seq (w_db w) + 1))
                            (w_session w))
                else
                  let user :=
                    registered (w_db w) data (bcrypt_hash (iu_password data) 10 salt) in
                  (Return (profile_response user),
                   world (with_users (w_db w) (users (w_db w) ++ [user])
                                     (users_id_seq (w_db w) + 1))
                         (signed_in (user_id user)))
              else (Return (internal_error "Erro interno do servidor"), w)
            else (Return (internal_error "Erro interno do servidor"), w)
        end
    end.
Proof.
  simpl. unfold POST_auth_register. run.
  destruct (insertUserSchema body) as [data|issues]; simpl; [|done].
  unfold getUserByEmail. simpl.
  destruct (head _) as [existing|] eqn:Hh; simpl; rewrite ?world_eta; [done|].
  apply head_filter_None in Hh. unfold createUser. simpl.
  destruct (_ && _); simpl; rewrite ?world_eta; [|done].
  case_decide; simpl; rewrite ?world_eta; [|done].
  rewrite decide_False by done.
  case_decide; simpl; by rewrite ?world_eta.
Qed.

(** C4 (as amended). Register fails with ValidationError, and the issues
    name the offending fields, when the name is empty, the email is
    malformed or the password has fewer than 6 characters; when the body
    passes validation, Register fails with DuplicateEmail if a user with
    that exact email already exists.  On either failure the database and
    the session are left as they were: no user record is created and no
    session is established. *)
Theorem register_failures (salt : string) (body : json) (w : World) :
  (∀ issues, insertUserSchema body = failure issues ->
     handle (Register salt body) w = (Return (validation_error issues), w))
  ∧ (∀ o name email password,
       body = JObj o ->
       o !! "name" = Some (JStr name) ->
       o !! "email" = Some (JStr email) ->
       o !! "password" = Some (JStr password) ->
       name = "" ∨ is_email email = false ∨ (String.length password < 6)%nat ->
       ∃ issues,
         insertUserSchema body = failure issues
         ∧ issue_path <$> issues = (λ field, [field]) <$> offending_fields name email password
         ∧ offending_fields name email password ≠ [])
  ∧ (∀ data existing,
       insertUserSchema body = success data ->
       existing ∈ users (w_db w) ->
       user_email existing = iu_email data ->
       handle (Register salt body) w = (Return duplicate_email, w)).
Proof.
  rewrite POST_auth_register_run. split; [|split].
  - intros issues ->. done.
  - intros o name email password -> Hn He Hp Hbad.
    assert (offending_fields name email password ≠ []) as Hoff.
    { unfold offending_fields. destruct Hbad as [->|[->|Hlt]].
      - done.
      - destruct (decide (name = "")); done.
      - destruct (decide (name = "")); [done|]. destruct (is_email email); [|done].
        destruct (decide (_ < _)%nat); done. }
    destruct (insertUserSchema_offending o name email password Hn He Hp Hoff)
      as (issues & ? & ?).
    eauto.
  - intros data existing -> Hin Hemail.
    destruct (head_filter_elem (λ x, user_email x = iu_email data) _ existing Hin Hemail)
      as (y & -> & _).
    done.
Qed.

(** *** Who am I *)

Lemma GET_auth_me_run (w : World) (u : Z) :
  userId (w_session w) = Some u -> u ≠ 0 ->
  handle WhoAmI w
  = match head (filter (λ x, user_id x = u) (users (w_db w))) with
    | Some user => (Return (profile_response user), w)
    | None =>
        (Return {| res_status := 404; res_body := message_json "Usuário não encontrado" |}, w)
    end.
Proof.
  intros Hs Hu. simpl. unfold GET_auth_me.
  rewrite (requireAuth_authenticated _ _ u) by done.
  run. unfold getUser. simpl. destruct (head _); simpl; by rewrite world_eta.
Qed.

Lemma user_json_fields (user : User) :
  ∃ fields : gmap string json,
    user_json user = JObj {[ "user" := JObj fields ]}
    ∧ dom fields = {[ "id"; "name"; "email" ]}
    ∧ fields !! "id" = Some (JNum (user_id user))
    ∧ fields !! "name" = Some (JStr (user_name user))
    ∧ fields !! "email" = Some (JStr (user_email user))
    ∧ fields !! "password" = None.
Proof.
  eexists. split; [reflexivity|]. split.
  { rewrite !dom_insert_L, dom_empty_L. set_solver. }
  repeat split.
Qed.

(** C9. The plaintext password does not persist past hashing, and no
    response carries a password.  A successful Register appends one user
    record whose password field is [bcrypt.hash] of the submitted password
    (10 rounds, the salt bcrypt drew); every success response of Register,
    Login and WhoAmI is the profile of a user of the database: an object
    [user] with exactly the keys id, name and email, which is the same
    whatever the record's password field holds. *)
Theorem password_only_hashed_never_returned
    (r : Request) (w : World) (resp : Response) (w' : World) :
  answers_profile r = true ->
  handle r w = (Return resp, w') ->
  res_status resp = 200 ->
  (∃ user fields,
     user ∈ users (w_db w')
     ∧ resp = profile_response user
     ∧ res_body resp = JObj {[ "user" := JObj fields ]}
     ∧ dom fields = {[ "id"; "name"; "email" ]}
     ∧ fields !! "id" = Some (JNum (user_id user))
     ∧ fields !! "name" = Some (JStr (user_name user))
     ∧ fields !! "email" = Some (JStr (user_email user))
     ∧ ∀ hash, profile_response
                 {| user_id := user_id user; user_name := user_name user;
                    user_email := user_email user; user_password := hash |}
               = resp)
  ∧ (∀ salt body, r = Register salt body ->
       ∃ o data,
         body = JObj o
         ∧ o !! "password" = Some (JStr (iu_password data))
         ∧ insertUserSchema body = success data
         ∧ users (w_db w')
           = users (w_db w)
             ++ [registered (w_db w) data (bcrypt_hash (iu_password data) 10 salt)]
         ∧ notes (w_db w') = notes (w_db w)).
Proof.
  intros Hr Hrun Hok.
  assert (∀ user, user ∈ users (w_db w') -> resp = profile_response user ->
    ∃ user fields,
     user ∈ users (w_db w')
     ∧ resp = profile_response user
     ∧ res_body resp = JObj {[ "user" := JObj fields ]}
     ∧ dom fields = {[ "id"; "name"; "email" ]}
     ∧ fields !! "id" = Some (JNum (user_id user))
     ∧ fields !! "name" = Some (JStr (user_name user))
     ∧ fields !! "email" = Some (JStr (user_email user))
     ∧ ∀ hash, profile_response
                 {| user_id := user_id user; user_name := user_name user;
                    user_email := user_email user; user_password := hash |}
               = resp) as Hprofile.
  { intros user Hin ->. destruct (user_json_fields user) as (fields & Hj & Hd & Hi & Hn & He & _).
    exists user, fields. repeat split; done. }
  destruct r as [salt body|body| | | | | |]; try discriminate.
  - rewrite POST_auth_register_run in Hrun.
    destruct (insertUserSchema body) as [data|issues] eqn:Hb; [|by inversion Hrun; subst].
    destruct (head _); [by inversion Hrun; subst|].
    destruct (_ && _); [|by inversion Hrun; subst].
    case_decide; [|by inversion Hrun; subst].
    case_decide; [by inversion Hrun; subst|].
    simpl in Hrun. inversion Hrun; subst. split.
    + eapply Hprofile; [|done]. simpl. apply elem_of_app. right. apply list_elem_of_here.
    + intros salt' body' [= <- <-].
      pose proof Hb as Hb'. apply insertUserSchema_success in Hb' as (o & -> & _ & _ & Hp & _).
      exists o, data. done.
  - rewrite POST_auth_login_run in Hrun.
    destruct (loginSchema body) as [data|issues]; [|by inversion Hrun; subst].
    unfold getUserByEmail in Hrun. simpl in Hrun.
    destruct (head _) as [user|] eqn:Hh; [|by inversion Hrun; subst].
    destruct (bcrypt_compare _ _); [|by inversion Hrun; subst].
    inversion Hrun; subst. split; [|done].
    apply head_filter_inv in Hh as [Hin _]. by eapply Hprofile.
  - destruct (userId (w_session w)) as [u|] eqn:Hs; cycle 1.
    { simpl in Hrun. unfold GET_auth_me in Hrun.
      rewrite requireAuth_unauthenticated in Hrun by done. by inversion Hrun; subst. }
    destruct (decide (u = 0)) as [->|Hu].
    { simpl in Hrun. unfold GET_auth_me, requireAuth in Hrun. rewrite Hs in Hrun.
      simpl in Hrun. by inversion Hrun; subst. }
    rewrite (GET_auth_me_run _ u) in Hrun by done.
    destruct (head _) as [user|] eqn:Hh; [|by inversion Hrun; subst].
    inversion Hrun; subst. split; [|done].
    apply head_filter_inv in Hh as [Hin _]. by eapply Hprofile.
Qed.

(** *** Updating one's own note *)

Lemma filter_own (l : list Note) (n : Note) :
  NoDup (note_id <$> l) -> n ∈ l ->
  filter (id_and_owner (note_id n) (note_userId n)) l = [n].
Proof.
  induction l as [|x l IH]; intros Hnd Hn.
  - by apply elem_of_nil in Hn.
  - rewrite fmap_cons in Hnd. apply NoDup_cons in Hnd as [Hx Hnd].
    rewrite filter_cons. apply elem_of_cons in Hn as [->|Hn].
    + rewrite decide_True by done. f_equal. apply filter_none.
      intros y Hy [Hid _]. apply Hx. rewrite <- Hid. by apply list_elem_of_fmap_2.
    + rewrite decide_False; [by apply IH|].
      intros [Hid _]. apply Hx. rewrite Hid. by apply list_elem_of_fmap_2.
Qed.

Lemma apply_set_id (values : PartialInsertNote) (n : Note) :
  note_id (apply_set values n) = note_id n ∧ note_userId (apply_set values n) = note_userId n.
Proof. done. Qed.

Lemma update_rows_ids (P : Note -> Prop) `{!∀ x, Decision (P x)} (values : PartialInsertNote)
    (l : list Note) :
  note_id <$> ((λ n, if decide (P n) then apply_set values n else n) <$> l) = note_id <$> l.
Proof.
  rewrite <- list_fmap_compose. apply list_fmap_ext. intros i x _. simpl.
  by destruct (decide (P x)).
Qed.

Lemma update_rows_pkey (db : Db) (P : Note -> Prop) `{!∀ x, Decision (P x)}
    (values : PartialInsertNote) :
  notes_pkey db ->
  notes_pkey (with_notes db ((λ n, if decide (P n) then apply_set values n else n) <$> notes db)
                         (notes_id_seq db)).
Proof.
  intros [Hnd Hall]. split; simpl.
  - by rewrite update_rows_ids.
  - apply Forall_fmap. eapply Forall_impl; [exact Hall|].
    intros x Hx. simpl. by destruct (decide (P x)).
Qed.

(** An update keeps the primary key. *)
Lemma updated_pkey (db : Db) (P : Note -> Prop) `{!∀ x, Decision (P x)}
    (values : PartialInsertNote) :
  notes_pkey db ->
  notes_pkey (with_notes db
                (filter (λ n, ¬ P n) (notes db) ++ (apply_set values <$> filter P (notes db)))
                (notes_id_seq db)).
Proof.
  intros Hpk. destruct (update_rows_pkey db P values Hpk) as [Hnd Hall].
  pose proof (update_perm P (apply_set values) (notes db)) as Hperm.
  split; simpl in *.
  - by rewrite Hperm.
  - rewrite Forall_forall in *. intros x Hx. apply Hall. by rewrite <- Hperm.
Qed.

(** The body [markCompletedMutation] sends, as the partial schema reads it. *)
Lemma markCompleted_body (today : string) :
  today ≠ "" ->
  insertNoteSchema_partial
    (JObj (<[ "status" := JStr "Concluída" ]> (<[ "completedDate" := JStr today ]> ∅)))
  = success {| set_title := None; set_createdDate := None;
               set_completedDate := Some today; set_status := Some Concluida |}.
Proof.
  intros Ht. unfold insertNoteSchema_partial.
  change ((<[ "status" := JStr "Concluída" ]> (<[ "completedDate" := JStr today ]> ∅)
            : gmap string json) !! "title") with (@None json).
  change ((<[ "status" := JStr "Concluída" ]> (<[ "completedDate" := JStr today ]> ∅)
            : gmap string json) !! "createdDate") with (@None json).
  change ((<[ "status" := JStr "Concluída" ]> (<[ "completedDate" := JStr today ]> ∅)
            : gmap string json) !! "completedDate") with (Some (JStr today)).
  change ((<[ "status" := JStr "Concluída" ]> (<[ "completedDate" := JStr today ]> ∅)
            : gmap string json) !! "status") with (Some (JStr "Concluída")).
  unfold z_optional, completedDate_schema. rewrite z_string_one_check. simpl.
  apply length_lt_1 in Ht. rewrite Ht. done.
Qed.

Lemma markCompleted_once (w : World) (n : Note) (today : string) :
  notes_pkey (w_db w) ->
  n ∈ notes (w_db w) ->
  userId (w_session w) = Some (note_userId n) -> note_userId n ≠ 0 ->
  parseInt (number_toString (note_id n)) = Some (note_id n) ->
  date_in today = Some today -> today ≠ "" ->
  ∃ w1,
    handle (markCompletedMutation today (note_id n)) w
    = (Return (note_response (completed today n)), w1)
    ∧ w_session w1 = w_session w
    ∧ notes_pkey (w_db w1)
    ∧ completed today n ∈ notes (w_db w1).
Proof.
  intros Hpk Hn Hs Hu Hid Hdate Hne.
  unfold markCompletedMutation.
  rewrite (PUT_notes_id_run _ (note_userId n)) by done.
  rewrite markCompleted_body by done. rewrite Hid.
  pose proof (updated_pkey (w_db w) (id_and_owner (note_id n) (note_userId n))
                {| set_title := None; set_createdDate := None;
                   set_completedDate := Some today; set_status := Some Concluida |} Hpk)
    as Hpk1.
  unfold updateNote. rewrite decide_True by by apply (pkey_int4 (w_db w)).
  simpl. rewrite Hdate. simpl.
  rewrite filter_own in * by (done || apply Hpk). simpl.
  eexists. split; [reflexivity|]. split; [done|]. split; [exact Hpk1|].
  simpl. apply elem_of_app. right. apply list_elem_of_here.
Qed.

(** C7. MarkCompleted is idempotent in effect: for a note owned by the
    caller, MarkCompleted on a date [d1] and then again on a date [d2]
    answers both times with the note in status done; after the first call
    the note of that id is the original with status done and completion
    date [d1], after the second it is the original with status done and
    completion date [d2], the date of the last call. *)
Theorem markCompleted_twice (w : World) (n : Note) (d1 d2 : string) :
  notes_pkey (w_db w) ->
  n ∈ notes (w_db w) ->
  userId (w_session w) = Some (note_userId n) -> note_userId n ≠ 0 ->
  parseInt (number_toString (note_id n)) = Some (note_id n) ->
  date_in d1 = Some d1 -> d1 ≠ "" ->
  date_in d2 = Some d2 -> d2 ≠ "" ->
  ∃ w1 w2,
    handle (markCompletedMutation d1 (note_id n)) w
    = (Return (note_response (completed d1 n)), w1)
    ∧ (∀ x, x ∈ notes (w_db w1) -> note_id x = note_id n -> x = completed d1 n)
    ∧ completed d1 n ∈ notes (w_db w1)
    ∧ handle (markCompletedMutation d2 (note_id n)) w1
      = (Return (note_response (completed d2 n)), w2)
    ∧ (∀ x, x ∈ notes (w_db w2) -> note_id x = note_id n -> x = completed d2 n)
    ∧ completed d2 n ∈ notes (w_db w2)
    ∧ note_status (completed d1 n) = Concluida
    ∧ note_status (completed d2 n) = Concluida
    ∧ note_completedDate (completed d2 n) = d2.
Proof.
  intros Hpk Hn Hs Hu Hid Hd1 Hne1 Hd2 Hne2.
  destruct (markCompleted_once w n d1 Hpk Hn Hs Hu Hid Hd1 Hne1)
    as (w1 & Hrun1 & Hs1 & Hpk1 & Hn1).
  destruct (markCompleted_once w1 (completed d1 n) d2 Hpk1 Hn1)
    as (w2 & Hrun2 & _ & Hpk2 & Hn2); try done.
  { by rewrite Hs1. }
  exists w1, w2. split; [done|]. split.
  { intros x Hx Hxid. symmetry. eapply pkey_unique; [apply Hpk1|done..]. }
  split; [done|]. split; [done|]. split.
  { intros x Hx Hxid. symmetry. eapply pkey_unique; [apply Hpk2|done..]. }
  done.
Qed.

(** *** Ownership along any sequence of requests *)

Lemma requireAuth_cases (next : Z -> Handler) (w : World) :
  requireAuth next w = (Return unauthenticated, w)
  ∨ ∃ u, userId (w_session w) = Some u ∧ u ≠ 0 ∧ requireAuth next w = next u w.
Proof.
  unfold requireAuth. destruct (userId (w_session w)) as [u|]; [|by left].
  destruct (decide (u = 0)); [by left|right; eauto].
Qed.

Lemma updateNote_db (id : option Z) (u : Z) (upd : PartialInsertNote) (db : Db) :
  snd (updateNote id u upd db) = db
  ∨ ∃ (P : Note -> Prop) (HP : ∀ x, Decision (P x)) values,
      snd (updateNote id u upd db)
      = with_notes db
          (filter (λ n, ¬ P n) (notes db) ++ (apply_set values <$> filter P (notes db)))
          (notes_id_seq db).
Proof.
  unfold updateNote. destruct (no_values upd); [by left|].
  destruct id as [id|]; [|by left].
  case_decide; [|by left].
  destruct (text_param (set_title upd)); [|by left].
  destruct (date_param (set_createdDate upd)); [|by left].
  destruct (date_param (set_completedDate upd)); [|by left].
  right. eexists (id_and_owner id u), _, _. done.
Qed.

Lemma deleteNote_db (id : option Z) (u : Z) (db : Db) :
  snd (deleteNote id u db) = db
  ∨ ∃ (P : Note -> Prop) (HP : ∀ x, Decision (P x)),
      snd (deleteNote id u db) = with_notes db (filter P (notes db)) (notes_id_seq db).
Proof.
  unfold deleteNote. destruct id as [id|]; [|by left].
  case_decide; [|by left].
  right. eexists (λ n, ¬ id_and_owner id u n), _. done.
Qed.

(** Every request is one step of the [notes] table. *)
Lemma serve_step (db : Db) (call : SessionData * Request) :
  notes_step db call (serve db call).
Proof.
  destruct call as [session r]. unfold serve.
  change (fst (session, r)) with session. change (snd (session, r)) with r.
  set (w := {| w_db := db; w_session := session |}).
  assert (∀ resp : Outcome Response,
            notes_step db (session, r) (w_db (snd (resp, w)))) as Hsame
    by (intros; apply step_same; [done|by left]).
  destruct r as [salt body|body| | | |body|params_id body|params_id];
    try (simpl handle; unfold GET_auth_me, GET_notes, POST_notes, PUT_notes_id, DELETE_notes_id;
         match goal with
         | |- context [requireAuth ?next w] =>
             destruct (requireAuth_cases next w) as [Heq|(u & Hs & Hu & _)];
             [rewrite Heq; apply Hsame|]
         end).
  - rewrite POST_auth_register_run.
    destruct (insertUserSchema body); [|apply Hsame].
    destruct (head _); [apply Hsame|].
    destruct (_ && _); [|apply Hsame].
    case_decide; [|apply Hsame].
    case_decide; apply step_same; (done || by left).
  - rewrite POST_auth_login_run.
    destruct (loginSchema body); [|apply Hsame].
    destruct (getUserByEmail _ _) as [[[user|]|e] db']; try apply Hsame.
    destruct (bcrypt_compare _ _); [apply step_same; (done || by left)|apply Hsame].
  - apply step_same; (done || by left).
  - change (requireAuth _ w) with (handle WhoAmI w).
    rewrite (GET_auth_me_run w u) by done.
    destruct (head _); apply Hsame.
  - change (requireAuth _ w) with (handle ListNotes w).
    simpl handle. unfold GET_notes. rewrite (requireAuth_authenticated _ _ u) by done.
    apply step_same; (done || by left).
  - change (requireAuth _ w) with (handle (CreateNote body) w).
    rewrite (POST_notes_run w u) by done.
    destruct (insertNoteSchema body) as [input|]; [|apply Hsame].
    destruct (createNote_cases (w_db w) u input)
      as [(c & d & _ & _ & _ & Hseq & _ & Hfresh & ->)
         |[(_ & message & ->)|(_ & message & ->)]].
    + by apply (step_insert _ _ _ u body input c d).
    + apply step_same; (done || by left).
    + apply step_same; (done || by right).
  - change (requireAuth _ w) with (handle (UpdateNote params_id body) w).
    rewrite (PUT_notes_id_run w u) by done.
    destruct (insertNoteSchema_partial body) as [upd|]; [|apply Hsame].
    assert (w_db (snd
              match updateNote (parseInt params_id) u upd (w_db w) with
              | (Return (Some row), db') => (Return (note_response row), world db' (w_session w))
              | (Return None, db') => (Return note_not_found, world db' (w_session w))
              | (Throw (ZodError issues), db') =>
                  (Return (validation_error issues), world db' (w_session w))
              | (Throw (Error _), db') =>
                  (Return (internal_error "Erro ao atualizar anotação"), world db' (w_session w))
              end) = snd (updateNote (parseInt params_id) u upd db)) as ->.
    { simpl. by destruct (updateNote _ _ _ _) as [[[row|]|[issues|message]] db']. }
    destruct (updateNote_db (parseInt params_id) u upd db) as [->|(P & HP & values & ->)];
      [apply step_same; (done || by left)|].
    by apply (step_update _ _ _ P HP values).
  - change (requireAuth _ w) with (handle (DeleteNote params_id) w).
    rewrite (DELETE_notes_id_run w u) by done.
    assert (w_db (snd
              match deleteNote (parseInt params_id) u (w_db w) with
              | (Return true, db') =>
                  (Return {| res_status := 200;
                             res_body := message_json "Anotação excluída com sucesso" |},
                   world db' (w_session w))
              | (Return false, db') => (Return note_not_found, world db' (w_session w))
              | (Throw _, db') =>
                  (Return (internal_error "Erro ao excluir anotação"), world db' (w_session w))
              end) = snd (deleteNote (parseInt params_id) u db)) as ->.
    { simpl. by destruct (deleteNote _ _ _) as [[[|]|e] db']. }
    destruct (deleteNote_db (parseInt params_id) u db) as [->|(P & HP & ->)];
      [apply step_same; (done || by left)|].
    by apply (step_delete _ _ _ P HP).
Qed.

Lemma provenance_same (db : Db) (calls : list (SessionData * Request)) (n : Note) :
  n ∈ notes db -> provenance db calls n.
Proof. intros Hn. left. eauto. Qed.

(** One step: the sequence does not go back, and every note afterwards has
    its provenance. *)
Lemma step_provenance (db db' : Db) (call : SessionData * Request) :
  notes_step db call db' ->
  notes_id_seq db <= notes_id_seq db'
  ∧ ∀ n', n' ∈ notes db' -> provenance db [call] n'.
Proof.
  destruct call as [session r].
  intros [Hn Hseq|u body input c d Hcall Hs Hfresh Hint Hn Hseq|P HP values Hn Hseq
         |P HP Hn Hseq];
    rewrite Hn; (split; [lia|]); intros n' Hn'.
  - by apply provenance_same.
  - apply elem_of_app in Hn' as [Hn'|Hn']; [by apply provenance_same|].
    apply list_elem_of_singleton in Hn' as ->. right. simpl in *. split; [lia|].
    exists session, body. subst r. split; [apply list_elem_of_here|done].
  - rewrite (update_perm P (apply_set values)) in Hn'.
    apply list_elem_of_fmap in Hn' as (n & -> & Hn'). left. exists n.
    by destruct (decide (P n)).
  - apply list_elem_of_filter in Hn' as [_ Hn']. by apply provenance_same.
Qed.

(** One step keeps the primary key. *)
Lemma step_pkey (db db' : Db) (call : SessionData * Request) :
  notes_step db call db' -> notes_pkey db -> notes_pkey db'.
Proof.
  intros [Hn Hseq|u body input c d Hcall Hs Hfresh Hint Hn Hseq|P HP values Hn Hseq
         |P HP Hn Hseq] Hpk.
  - destruct Hpk as [Hnd Hall]. unfold notes_pkey. rewrite Hn. split; [done|].
    eapply Forall_impl; [exact Hall|]. simpl. intros x [? ?]. split; [done|lia].
  - destruct Hpk as [Hnd Hall]. unfold notes_pkey. rewrite Hn, Hseq. split.
    + rewrite fmap_app. apply NoDup_app. split; [done|]. split; [|apply NoDup_singleton].
      intros i Hi Hi'. apply list_elem_of_singleton in Hi'. simpl in Hi'. subst i.
      apply list_elem_of_fmap in Hi as (n & Hid & Hn').
      rewrite Forall_forall in Hall. destruct (Hall n Hn'). lia.
    + apply Forall_app. split.
      * eapply Forall_impl; [exact Hall|]. simpl. intros x [? ?]. split; [done|lia].
      * apply Forall_singleton. simpl. split; [done|lia].
  - destruct (updated_pkey db P values Hpk) as [Hnd Hall]. simpl in *.
    unfold notes_pkey. by rewrite Hn, Hseq.
  - destruct Hpk as [Hnd Hall]. unfold notes_pkey. rewrite Hn, Hseq. split.
    + apply (NoDup_fmap_2_strong note_id).
      * intros x y Hx Hy Hxy. apply list_elem_of_filter in Hx as [_ Hx], Hy as [_ Hy].
        by eapply pkey_unique.
      * apply NoDup_filter. eapply NoDup_fmap_1. exact Hnd.
    + apply Forall_forall. intros x Hx. apply list_elem_of_filter in Hx as [_ Hx].
      rewrite Forall_forall in Hall. by apply Hall.
Qed.

(** X1. The primary key of [notes] is an invariant of the server: it holds
    in every database reached, by any sequence of requests under any
    sessions, from a database in which it holds. *)
Lemma serve_all_pkey (calls : list (SessionData * Request)) (db : Db) :
  notes_pkey db -> notes_pkey (serve_all db calls).
Proof.
  revert db. induction calls as [|call calls IH]; intros db Hpk; [done|].
  change (serve_all db (call :: calls)) with (serve_all (serve db call) calls).
  apply IH. eapply step_pkey; [apply serve_step|done].
Qed.

Lemma serve_all_provenance (calls : list (SessionData * Request)) (db : Db) :
  notes_id_seq db <= notes_id_seq (serve_all db calls)
  ∧ ∀ n', n' ∈ notes (serve_all db calls) -> provenance db calls n'.
Proof.
  revert db. induction calls as [|call calls IH]; intros db.
  - simpl. split; [lia|]. intros. by apply provenance_same.
  - change (serve_all db (call :: calls)) with (serve_all (serve db call) calls).
    destruct (step_provenance db _ call (serve_step db call)) as [Hseq Hstep].
    destruct (IH (serve db call)) as [Hseq' Hrest].
    split; [lia|]. intros n' Hn'.
    destruct (Hrest n' Hn') as [(n1 & Hn1 & Hid & Hown)|(Hnew & session & body & Hin & Hs)].
    + destruct (Hstep n1 Hn1) as [(n & Hn & Hid' & Hown')|(Hnew & session & body & Hin & Hs)].
      * left. exists n. split; [done|]. split; congruence.
      * right. split; [lia|]. exists session, body.
        apply list_elem_of_singleton in Hin as <-.
        split; [apply list_elem_of_here|congruence].
    + right. split; [lia|]. exists session, body.
      split; [by apply list_elem_of_further|done].
Qed.

(** The partial schema reads the same four keys: [id] and [userId] are not
    among them. *)
Lemma insertNoteSchema_partial_reads (o1 o2 : gmap string json) :
  (∀ k, k ∈ ["title"; "createdDate"; "completedDate"; "status"] -> o1 !! k = o2 !! k) ->
  insertNoteSchema_partial (JObj o1) = insertNoteSchema_partial (JObj o2).
Proof.
  intros Hk. unfold insertNoteSchema_partial.
  rewrite (Hk "title"), (Hk "createdDate"), (Hk "completedDate"), (Hk "status");
    [done|repeat first [apply list_elem_of_here|apply list_elem_of_further]..].
Qed.

Lemma id_not_read : "id" ∉ ["title"; "createdDate"; "completedDate"; "status"].
Proof.
  intros Hk. repeat (apply elem_of_cons in Hk as [Hk|Hk]; [discriminate|]).
  by apply elem_of_nil in Hk.
Qed.

(** C10. Note ownership is immutable.  Start from any database that
    respects the primary key of [notes] and serve any sequence of requests,
    each under whatever session it presents.  A note [n'] of the resulting
    database that has the id of a note [n] of the starting database has
    [n]'s owner; and every note of the resulting database either has the id
    of a note of the starting database or was created by a create request
    of the sequence whose session user is its owner.  An update cannot name
    another owner: the schema of the update body reads neither [userId] nor
    [id], and [.set] keeps both columns of every row. *)
Theorem note_owner_immutable
    (db : Db) (calls : list (SessionData * Request)) (n' : Note) :
  notes_pkey db ->
  n' ∈ notes (serve_all db calls) ->
  (∀ n, n ∈ notes db -> note_id n = note_id n' -> note_userId n' = note_userId n)
  ∧ ((∃ n, n ∈ notes db ∧ note_id n = note_id n')
     ∨ ∃ session body,
         (session, CreateNote body) ∈ calls ∧ userId session = Some (note_userId n'))
  ∧ (∀ o key v, key = "userId" ∨ key = "id" ->
       insertNoteSchema_partial (JObj (<[ key := v ]> o)) = insertNoteSchema_partial (JObj o))
  ∧ (∀ values n, note_id (apply_set values n) = note_id n
                 ∧ note_userId (apply_set values n) = note_userId n).
Proof.
  intros Hpk Hn'. pose proof Hpk as [Hnd _].
  destruct (serve_all_provenance calls db) as [_ Hprov].
  specialize (Hprov n' Hn').
  split; [|split; [|split]].
  - intros n Hn Hid.
    destruct Hprov as [(n0 & Hn0 & Hid0 & Hown0)|(Hnew & _)].
    + assert (n0 = n) as -> by (eapply pkey_unique; eauto; congruence). done.
    + pose proof (pkey_issued _ _ Hpk Hn). lia.
  - destruct Hprov as [(n0 & Hn0 & Hid0 & _)|(_ & session & body & Hin & Hs)]; [left|right]; eauto.
  - intros o key v Hkey. apply insertNoteSchema_partial_reads. intros k Hk.
    apply lookup_insert_ne. intros <-.
    destruct Hkey as [->| ->]; [by apply userId_not_read|by apply id_not_read].
  - intros values n. apply apply_set_id.
Qed.

(** *** Every request as one step of the database *)

Lemma serve_db_step (db : Db) (call : SessionData * Request) :
  db_step db call (serve db call).
Proof.
  destruct call as [session r]. unfold serve.
  change (fst (session, r)) with session. change (snd (session, r)) with r.
  set (w := {| w_db := db; w_session := session |}).
  assert (∀ resp : Outcome Response, db_step db (session, r) (w_db (snd (resp, w)))) as Hsame
    by (intros; by apply db_same).
  destruct r as [salt body|body| | | |body|params_id body|params_id];
    try (simpl handle; unfold GET_auth_me, GET_notes, POST_notes, PUT_notes_id, DELETE_notes_id;
         match goal with
         | |- context [requireAuth ?next w] =>
             destruct (requireAuth_cases next w) as [Heq|(u & Hs & Hu & _)];
             [rewrite Heq; apply Hsame|]
         end).
  - rewrite POST_auth_register_run.
    destruct (insertUserSchema body) as [data|] eqn:Hb; [|apply Hsame].
    destruct (head _) eqn:Hh; [apply Hsame|].
    destruct (_ && _); [|apply Hsame].
    case_decide; [|apply Hsame].
    case_decide; [by apply (db_register_refused _ _ _ salt body)|].
    apply head_filter_None in Hh. by eapply (db_register _ _ _ salt body data).
  - rewrite POST_auth_login_run.
    destruct (loginSchema body); [|apply Hsame].
    destruct (getUserByEmail _ _) as [[[user|]|e] db']; try apply Hsame.
    destruct (bcrypt_compare _ _); [by apply db_same|apply Hsame].
  - by apply db_same.
  - change (requireAuth _ w) with (handle WhoAmI w).
    rewrite (GET_auth_me_run w u) by done.
    destruct (head _); apply Hsame.
  - change (requireAuth _ w) with (handle ListNotes w).
    simpl handle. unfold GET_notes. rewrite (requireAuth_authenticated _ _ u) by done.
    by apply db_same.
  - change (requireAuth _ w) with (handle (CreateNote body) w).
    rewrite (POST_notes_run w u) by done.
    destruct (insertNoteSchema body) as [input|]; [|apply Hsame].
    destruct (createNote_cases (w_db w) u input)
      as [(c & d & _ & _ & _ & _ & _ & _ & ->)|[(_ & message & ->)|(_ & message & ->)]].
    + by apply (db_create _ _ _ u body input c d).
    + by apply db_same.
    + by apply (db_create_refused _ _ _ body).
  - change (requireAuth _ w) with (handle (UpdateNote params_id body) w).
    rewrite (PUT_notes_id_run w u) by done.
    destruct (insertNoteSchema_partial body) as [upd|]; [|apply Hsame].
    assert (w_db (snd
              match updateNote (parseInt params_id) u upd (w_db w) with
              | (Return (Some row), db') => (Return (note_response row), world db' (w_session w))
              | (Return None, db') => (Return note_not_found, world db' (w_session w))
              | (Throw (ZodError issues), db') =>
                  (Return (validation_error issues), world db' (w_session w))
              | (Throw (Error _), db') =>
                  (Return (internal_error "Erro ao atualizar anotação"), world db' (w_session w))
              end) = snd (updateNote (parseInt params_id) u upd db)) as ->.
    { simpl. by destruct (updateNote _ _ _ _) as [[[row|]|[issues|message]] db']. }
    destruct (updateNote_db (parseInt params_id) u upd db) as [->|(P & HP & values & ->)];
      [by apply db_same|].
    by apply (db_update _ _ _ params_id body P HP values).
  - change (requireAuth _ w) with (handle (DeleteNote params_id) w).
    rewrite (DELETE_notes_id_run w u) by done.
    assert (w_db (snd
              match deleteNote (parseInt params_id) u (w_db w) with
              | (Return true, db') =>
                  (Return {| res_status := 200;
                             res_body := message_json "Anotação excluída com sucesso" |},
                   world db' (w_session w))
              | (Return false, db') => (Return note_not_found, world db' (w_session w))
              | (Throw _, db') =>
                  (Return (internal_error "Erro ao excluir anotação"), world db' (w_session w))
              end) = snd (deleteNote (parseInt params_id) u db)) as ->.
    { simpl. by destruct (deleteNote _ _ _) as [[[|]|e] db']. }
    destruct (deleteNote_db (parseInt params_id) u db) as [->|(P & HP & ->)];
      [by apply db_same|].
    by apply (db_delete _ _ _ params_id P HP).
Qed.

(** X2. Each request writes only to its own table: a request other than
    register leaves [users] and its sequence as they were, and a request other
    than create, update and delete of a note leaves [notes] and its sequence
    as they were; login, logout, whoami and list leave the whole database as
    it was. *)
Theorem request_frame (db : Db) (call : SessionData * Request) :
  (writes_users call.2 = false ->
     users (serve db call) = users db ∧ users_id_seq (serve db call) = users_id_seq db)
  ∧ (writes_notes call.2 = false ->
       notes (serve db call) = notes db ∧ notes_id_seq (serve db call) = notes_id_seq db)
  ∧ (writes_users call.2 = false -> writes_notes call.2 = false -> serve db call = db).
Proof.
  destruct (serve_db_step db call)
    as [->|salt body Hc ->|body Hc ->|salt body data Hc _ _ _ ->|u body input c d Hc _ ->
        |pid body P HP values Hc ->|pid P HP Hc ->];
    try done; rewrite Hc; simpl; done.
Qed.

(** X3. Users are only ever added: whatever requests are served, the users
    of the database remain, unchanged and in place, at the front of the table;
    no exposed operation alters or removes a user record. *)
Theorem users_only_grow (db : Db) (calls : list (SessionData * Request)) :
  users db `prefix_of` users (serve_all db calls).
Proof.
  revert db. induction calls as [|call calls IH]; intros db; [done|].
  change (serve_all db (call :: calls)) with (serve_all (serve db call) calls).
  etrans; [|apply IH].
  destruct (serve_db_step db call)
    as [->|salt body _ ->|body _ ->|salt body data _ _ _ _ ->|u body input c d _ _ ->
        |pid body P HP values _ ->|pid P HP _ ->]; simpl; try done.
  by apply prefix_app_r.
Qed.

Lemma step_users_pkey (db db' : Db) (call : SessionData * Request) :
  db_step db call db' -> users_pkey db -> users_pkey db'.
Proof.
  intros [->|salt body _ ->|body _ ->|salt body data _ _ Hemail Hfresh ->|u body input c d _ _ ->
          |pid body P HP values _ ->|pid P HP _ ->]; try done.
  { intros (Hnd & Hlt & Hseq & Hem). unfold users_pkey. simpl.
    split; [done|]. split; [|split; [lia|done]].
    eapply Forall_impl; [exact Hlt|]. simpl. intros. lia. }
  intros (Hnd & Hlt & Hseq & Hem). unfold users_pkey. simpl.
  rewrite !fmap_app. simpl. split; [|split; [|split]].
  - apply NoDup_app. split; [done|]. split; [|apply NoDup_singleton].
    intros i Hi Hi'. apply list_elem_of_singleton in Hi'. subst i.
    apply list_elem_of_fmap in Hi as (x & Hid & Hx).
    apply Hfresh. apply Exists_exists. eauto.
  - apply Forall_app. split.
    + eapply Forall_impl; [exact Hlt|]. simpl. intros. lia.
    + apply Forall_singleton. simpl. lia.
  - lia.
  - apply NoDup_app. split; [done|]. split; [|apply NoDup_singleton].
    intros e He He'. apply list_elem_of_singleton in He'. subst e.
    apply list_elem_of_fmap in He as (x & Hxe & Hx).
    apply Hemail. apply Exists_exists. eauto.
Qed.

(** X4. The constraints of [users] are an invariant of the server: unique
    positive ids below the sequence and unique emails hold in every database
    reached, by any sequence of requests, from a database in which they hold;
    registration never produces two users with one email. *)
Theorem serve_all_users_pkey (calls : list (SessionData * Request)) (db : Db) :
  users_pkey db -> users_pkey (serve_all db calls).
Proof.
  revert db. induction calls as [|call calls IH]; intros db Hpk; [done|].
  change (serve_all db (call :: calls)) with (serve_all (serve db call) calls).
  apply IH. eapply step_users_pkey; [apply serve_db_step|done].
Qed.

(** *** Sessions and profiles *)



(** X9. Whoami under an orphaned session, one whose user id has no record in
    [users]: the answer is 404 "Usuário não encontrado", and neither the
    database nor the session changes; the session is not invalidated. *)
Theorem whoami_orphaned (w : World) (id : Z) :
  userId (w_session w) = Some id -> id ≠ 0 ->
  ¬ Exists (λ x, user_id x = id) (users (w_db w)) ->
  handle WhoAmI w
  = (Return {| res_status := 404; res_body := message_json "Usuário não encontrado" |}, w).
Proof.
  intros Hs Hid Hnone. rewrite (GET_auth_me_run _ id) by done.
  destruct (head _) as [user|] eqn:Hh; [|done].
  apply head_filter_inv in Hh as [Hin Hx]. destruct Hnone. apply Exists_exists. eauto.
Qed.

Lemma loginSchema_of_registered (o : gmap string json) (data : InsertUser) :
  offending_fields (iu_name data) (iu_email data) (iu_password data) = [] ->
  o !! "email" = Some (JStr (iu_email data)) ->
  o !! "password" = Some (JStr (iu_password data)) ->
  loginSchema (JObj o)
  = success {| lu_email := iu_email data; lu_password := iu_password data |}.
Proof.
  intros Hoff He Hp. apply loginSchema_success. exists o. simpl.
  unfold offending_fields in Hoff.
  destruct (decide (iu_name data = "")); [done|].
  destruct (is_email (iu_email data)) eqn:Hem; [|done].
  destruct (decide (String.length (iu_password data) < 6)%nat) as [|Hlen]; [done|].
  repeat split; try done. intros Hempty. rewrite Hempty in Hlen. simpl in Hlen. lia.
Qed.

(** X6. Register, then whoami and login.  Over a database that respects the
    constraints of [users], a registration that is answered 200 binds the
    session to the new user; whoami under that session answers with the same
    profile; and, [bcrypt.compare] accepting a password against its own hash,
    a login with the registered email and password, from any session,
    answers with the same profile and binds the session to the same user. *)
Theorem register_then_whoami_and_login
    (salt : string) (body : json) (w : World) (resp : Response) (w' : World) :
  users_pkey (w_db w) ->
  handle (Register salt body) w = (Return resp, w') ->
  res_status resp = 200 ->
  ∃ data user,
    insertUserSchema body = success data
    ∧ resp = profile_response user
    ∧ user_id user = users_id_seq (w_db w)
    ∧ w_session w' = signed_in (user_id user)
    ∧ handle WhoAmI w' = (Return resp, w')
    ∧ (bcrypt_compare (iu_password data) (bcrypt_hash (iu_password data) 10 salt) = true ->
       ∀ o session,
         o !! "email" = Some (JStr (iu_email data)) ->
         o !! "password" = Some (JStr (iu_password data)) ->
         handle (Login (JObj o)) (world (w_db w') session) = (Return resp, w')).
Proof.
  intros (_ & _ & Hseq & _) Hrun Hok.
  rewrite POST_auth_register_run in Hrun.
  destruct (insertUserSchema body) as [data|issues] eqn:Hb; [|by inversion Hrun; subst].
  destruct (head _) eqn:Hh; [by inversion Hrun; subst|].
  destruct (_ && _); [|by inversion Hrun; subst].
  case_decide; [|by inversion Hrun; subst].
  case_decide as Hfresh; [by inversion Hrun; subst|].
  simpl in Hrun. inversion Hrun; subst. clear Hrun.
  set (user := registered (w_db w) data (bcrypt_hash (iu_password data) 10 salt)).
  exists data, user. split; [done|]. split; [done|]. split; [done|]. split; [done|].
  split.
  - rewrite (GET_auth_me_run _ (user_id user)); [|done|simpl; lia].
    simpl. rewrite filter_app.
    rewrite (filter_none (λ x, user_id x = users_id_seq (w_db w))); cycle 1.
    { intros x Hx Hid. apply Hfresh. apply Exists_exists. eauto. }
    simpl. rewrite filter_cons. simpl. by rewrite decide_True.
  - intros Hbcrypt o session He Hp.
    rewrite POST_auth_login_run.
    apply insertUserSchema_success in Hb as (_ & _ & _ & _ & _ & Hoff).
    rewrite (loginSchema_of_registered o data Hoff He Hp).
    unfold getUserByEmail. simpl. rewrite filter_app.
    rewrite (filter_none (λ x, user_email x = iu_email data)); cycle 1.
    { intros x Hx Hem. apply head_filter_None in Hh. apply Hh, Exists_exists. eauto. }
    simpl. rewrite filter_cons. simpl. rewrite decide_True by done. simpl.
    by rewrite Hbcrypt.
Qed.

(** X7. Logout destroys the session and nothing else: it answers 200, leaves
    the database as it was, and leaves the session without a user, so that
    every protected operation that follows answers 401; a second logout
    gives the same answer and the same state. *)
Theorem logout_then_protected (w : World) :
  handle Logout w
  = (Return {| res_status := 200; res_body := message_json "Logout realizado com sucesso" |},
     world (w_db w) anonymous)
  ∧ (∀ r, protected r = true ->
       handle r (world (w_db w) anonymous) = (Return unauthenticated, world (w_db w) anonymous))
  ∧ handle Logout (world (w_db w) anonymous) = handle Logout w.
Proof.
  split; [done|]. split; [|done].
  intros r Hr. destruct r; try discriminate; simpl;
    by apply requireAuth_unauthenticated.
Qed.

(** X8. [requireAuth] lets a request through exactly when the session holds
    a user id that JavaScript takes for true: a protected operation answers
    with the 401 response exactly when the session holds no user id or holds
    the id 0. *)
Theorem unauthenticated_iff_no_truthy_user (r : Request) (w : World) :
  protected r = true ->
  (fst (handle r w) = Return unauthenticated
   <-> userId (w_session w) = None ∨ userId (w_session w) = Some 0).
Proof.
  intros Hr. split.
  - destruct (userId (w_session w)) as [u|] eqn:Hs; [|by left].
    destruct (decide (u = 0)) as [->|Hu]; [by right|]. intros Hresp. exfalso.
    destruct r as [| | | | |body|pid body|pid]; try discriminate.
    + rewrite (GET_auth_me_run _ u) in Hresp by done. by destruct (head _).
    + simpl in Hresp. unfold GET_notes in Hresp.
      rewrite (requireAuth_authenticated _ _ u) in Hresp by done. by run.
    + rewrite (POST_notes_run _ u) in Hresp by done.
      destruct (insertNoteSchema body); [|done].
      by destruct (createNote _ _ _) as [[note|[issues|message]] db'].
    + rewrite (PUT_notes_id_run _ u) in Hresp by done.
      destruct (insertNoteSchema_partial body); [|done].
      by destruct (updateNote _ _ _ _) as [[[row|]|[issues|message]] db'].
    + rewrite (DELETE_notes_id_run _ u) in Hresp by done.
      by destruct (deleteNote _ _ _) as [[[|]|e] db'].
  - intros Hs.
    assert (∀ next, requireAuth next w = (Return unauthenticated, w)) as Hreq.
    { intros next. unfold requireAuth. by destruct Hs as [-> | ->]. }
    destruct r; try discriminate; simpl;
      unfold GET_auth_me, GET_notes, POST_notes, PUT_notes_id, DELETE_notes_id;
      by rewrite Hreq.
Qed.

(** *** Notes: listing, updating and deleting one's own *)

(** X10. List is scoped to the caller and reads only: for an authenticated
    user it answers 200 with exactly the notes of the table whose owner is
    that user, in the order of the table, and leaves the database and the
    session as they were; no note of another user is ever in the list. *)
Theorem list_only_own_notes (w : World) (u : Z) :
  userId (w_session w) = Some u -> u ≠ 0 ->
  ∃ listed,
    handle ListNotes w
    = (Return {| res_status := 200; res_body := JArr (note_json <$> listed) |}, w)
    ∧ (∀ n, n ∈ listed <-> n ∈ notes (w_db w) ∧ note_userId n = u)
    ∧ listed `sublist_of` notes (w_db w).
Proof.
  intros Hs Hu. exists (filter (λ n, note_userId n = u) (notes (w_db w))).
  split; [|split].
  - simpl. unfold GET_notes. rewrite (requireAuth_authenticated _ _ u) by done.
    run. by rewrite world_eta.
  - intros n. rewrite list_elem_of_filter. split; intros [? ?]; done.
  - apply sublist_filter.
Qed.

Lemma filter_nil_iff_not_Exists {A} (P : A -> Prop) `{!∀ x, Decision (P x)} (l : list A) :
  filter P l = [] <-> ¬ Exists P l.
Proof.
  split.
  - intros Hf Hex. apply Exists_exists in Hex as (x & Hx & HP).
    by eapply filter_nil_not_elem_of.
  - intros Hne. apply filter_none. intros x Hx HP. apply Hne, Exists_exists. eauto.
Qed.

Lemma updateNote_executable (id u : Z) (upd : PartialInsertNote) (db : Db) :
  int4 id ->
  executable upd ->
  ∃ values,
    bound_values upd = Some values
    ∧ updateNote (Some id) u upd db
      = (Return (head (apply_set values <$> filter (id_and_owner id u) (notes db))),
         with_notes db
           (filter (λ n, ¬ id_and_owner id u n) (notes db)
            ++ (apply_set values <$> filter (id_and_owner id u) (notes db)))
           (notes_id_seq db)).
Proof.
  intros Hid (Hv & Ht & [c Hc] & [d Hd]). unfold updateNote, bound_values.
  rewrite Hv, Ht, Hc, Hd. rewrite decide_True by done.
  eexists. split; reflexivity.
Qed.

Lemma not_found_iff_no_own_note_delete (w : World) (u : Z) (params_id : string) (id : Z) :
  userId (w_session w) = Some u -> u ≠ 0 ->
  parseInt params_id = Some id -> int4 id ->
  ¬ Exists (id_and_owner id u) (notes (w_db w)) ->
  handle (DeleteNote params_id) w = (Return note_not_found, w).
Proof.
  intros Hs Hu Hid Hint Hnone. rewrite (DELETE_notes_id_run _ u) by done. rewrite Hid.
  unfold deleteNote. rewrite decide_True by done.
  pose proof (proj2 (filter_nil_iff_not_Exists _ _) Hnone) as Hf.
  rewrite Hf. simpl.
  rewrite filter_all; cycle 1.
  { intros y Hy HP. by eapply filter_nil_not_elem_of. }
  rewrite with_notes_same. unfold world. by rewrite world_eta.
Qed.

(** X11. NotFound means no note of one's own under that id, whether the id
    is absent from the table or belongs to a note of another user: for an
    authenticated user [u] and a route parameter that reads as [id], a
    32-bit integer, delete answers 404 with nothing changed exactly when no
    note has the id [id] and the owner [u], and so does an update whose body
    passes validation and which the database executes (a value to set, a
    title without the character U+0000, dates that are dates).  A route
    parameter that reads as an integer outside 32 bits is answered 500 by
    both, with nothing changed. *)
Theorem not_found_iff_no_own_note (w : World) (u : Z) (params_id : string) (id : Z) :
  userId (w_session w) = Some u -> u ≠ 0 ->
  parseInt params_id = Some id ->
  (int4 id ->
   (handle (DeleteNote params_id) w = (Return note_not_found, w)
    <-> ¬ Exists (id_and_owner id u) (notes (w_db w)))
   ∧ (∀ body upd,
        insertNoteSchema_partial body = success upd -> executable upd ->
        (handle (UpdateNote params_id body) w = (Return note_not_found, w)
         <-> ¬ Exists (id_and_owner id u) (notes (w_db w)))))
  ∧ (¬ int4 id ->
     handle (DeleteNote params_id) w = (Return (internal_error "Erro ao excluir anotação"), w)
     ∧ (∀ body upd,
          insertNoteSchema_partial body = success upd ->
          handle (UpdateNote params_id body) w
          = (Return (internal_error "Erro ao atualizar anotação"), w))).
Proof.
  intros Hs Hu Hid. split; [intros Hint; split|intros Hint; split].
  - rewrite (DELETE_notes_id_run _ u) by done. rewrite Hid. unfold deleteNote.
    rewrite decide_True by done.
    rewrite <- (filter_nil_iff_not_Exists (id_and_owner id u)).
    destruct (filter (id_and_owner id u) (notes (w_db w))) as [|x xs] eqn:Hf; simpl.
    + split; [done|]. intros _.
      rewrite filter_all; cycle 1.
      { intros y Hy HP. by eapply filter_nil_not_elem_of. }
      rewrite with_notes_same. unfold world. by rewrite world_eta.
    + split; [|done]. intros Hrun. by inversion Hrun.
  - intros body upd Hb Hx. rewrite (PUT_notes_id_run _ u) by done. rewrite Hb, Hid.
    destruct (updateNote_executable id u upd (w_db w) Hint Hx) as (values & _ & ->).
    rewrite <- (filter_nil_iff_not_Exists (id_and_owner id u)).
    destruct (filter (id_and_owner id u) (notes (w_db w))) as [|x xs] eqn:Hf; simpl.
    + split; [done|]. intros _.
      rewrite filter_all; cycle 1.
      { intros y Hy HP. by eapply filter_nil_not_elem_of. }
      rewrite app_nil_r, with_notes_same. unfold world. by rewrite world_eta.
    + split; [|done]. done.
  - rewrite (DELETE_notes_id_run _ u) by done. rewrite Hid. unfold deleteNote.
    rewrite decide_False by done. unfold world. by rewrite world_eta.
  - intros body upd Hb. rewrite (PUT_notes_id_run _ u) by done. rewrite Hb, Hid.
    unfold updateNote. destruct (no_values upd); [unfold world; by rewrite world_eta|].
    rewrite decide_False by done. unfold world. by rewrite world_eta.
Qed.

Lemma update_rows_elem (l : list Note) (n : Note) (values : PartialInsertNote) (m : Note) :
  NoDup (note_id <$> l) -> n ∈ l ->
  m ∈ (λ x, if decide (id_and_owner (note_id n) (note_userId n) x)
            then apply_set values x else x) <$> l
  <-> m = apply_set values n ∨ (m ∈ l ∧ note_id m ≠ note_id n).
Proof.
  intros Hnd Hn. rewrite list_elem_of_fmap. split.
  - intros (x & -> & Hx). case_decide as HP.
    + left. destruct HP as [Hid _]. f_equal. by eapply pkey_unique.
    + right. split; [done|]. intros Hid. apply HP.
      assert (x = n) as -> by (by eapply pkey_unique). done.
  - intros [->|[Hm Hid]].
    + exists n. by rewrite decide_True.
    + exists m. split; [|done]. rewrite decide_False; [done|]. by intros [? _].
Qed.

Lemma bound_values_executable (upd values : PartialInsertNote) :
  no_values upd = false -> bound_values upd = Some values -> executable upd.
Proof.
  intros Hv Hvalues. unfold executable. unfold bound_values in Hvalues.
  destruct (text_param (set_title upd)); [|done].
  destruct (date_param (set_createdDate upd)); [|done].
  destruct (date_param (set_completedDate upd)); [|done]. eauto.
Qed.

(** The table after an update of the note [n] alone. *)
Lemma updated_elem (l : list Note) (n : Note) (values : PartialInsertNote) (m : Note) :
  NoDup (note_id <$> l) -> n ∈ l ->
  m ∈ filter (λ x, ¬ id_and_owner (note_id n) (note_userId n) x) l
      ++ (apply_set values <$> filter (id_and_owner (note_id n) (note_userId n)) l)
  <-> m = apply_set values n ∨ (m ∈ l ∧ note_id m ≠ note_id n).
Proof.
  intros Hnd Hn. rewrite (update_perm _ (apply_set values)). by apply update_rows_elem.
Qed.

Lemma owner_update_run
    (w : World) (n : Note) (params_id : string) (body : json)
    (upd values : PartialInsertNote) :
  notes_pkey (w_db w) ->
  n ∈ notes (w_db w) ->
  userId (w_session w) = Some (note_userId n) -> note_userId n ≠ 0 ->
  parseInt params_id = Some (note_id n) ->
  insertNoteSchema_partial body = success upd ->
  no_values upd = false ->
  bound_values upd = Some values ->
  handle (UpdateNote params_id body) w
  = (Return (note_response (apply_set values n)),
     world (with_notes (w_db w)
              (filter (λ x, ¬ id_and_owner (note_id n) (note_userId n) x) (notes (w_db w))
               ++ (apply_set values
                     <$> filter (id_and_owner (note_id n) (note_userId n)) (notes (w_db w))))
              (notes_id_seq (w_db w)))
           (w_session w)).
Proof.
  intros Hpk Hn Hs Hu Hid Hb Hv Hvalues.
  pose proof (bound_values_executable upd values Hv Hvalues) as Hx.
  destruct (updateNote_executable (note_id n) (note_userId n) upd (w_db w)
              (pkey_int4 _ _ Hpk Hn) Hx)
    as (values' & Hvalues' & Hrun).
  assert (values' = values) as -> by congruence.
  rewrite (PUT_notes_id_run _ (note_userId n)) by done.
  rewrite Hb, Hid, Hrun. rewrite filter_own by (done || apply Hpk). done.
Qed.

(** X12. An owner's update changes that note and no other: for a note [n] of
    the caller, in a database that respects the primary key, a body that
    passes validation and that the database executes (it has a value to set,
    its title, if any, has no character U+0000, and its dates, if any, are
    dates: [values] is what the database then binds) is answered 200 with [n]
    in which the supplied fields are replaced (the dates as the database
    reads them back) and the others are kept, its id and owner included;
    afterwards the table holds that note instead of [n] and every other note
    as before, and users and session are untouched. *)
Theorem owner_update_changes_only_that_note
    (w : World) (n : Note) (params_id : string) (body : json)
    (upd values : PartialInsertNote) :
  notes_pkey (w_db w) ->
  n ∈ notes (w_db w) ->
  userId (w_session w) = Some (note_userId n) -> note_userId n ≠ 0 ->
  parseInt params_id = Some (note_id n) ->
  insertNoteSchema_partial body = success upd ->
  no_values upd = false ->
  text_param (set_title upd) = true ->
  bound_values upd = Some values ->
  ∃ w',
    handle (UpdateNote params_id body) w = (Return (note_response (apply_set values n)), w')
    ∧ w_session w' = w_session w
    ∧ users (w_db w') = users (w_db w)
    ∧ (∀ m, m ∈ notes (w_db w')
            <-> m = apply_set values n ∨ (m ∈ notes (w_db w) ∧ note_id m ≠ note_id n))
    ∧ length (notes (w_db w')) = length (notes (w_db w))
    ∧ notes_pkey (w_db w')
    ∧ note_id (apply_set values n) = note_id n
    ∧ note_userId (apply_set values n) = note_userId n
    ∧ note_title (apply_set values n) = default (note_title n) (set_title upd)
    ∧ note_status (apply_set values n) = default (note_status n) (set_status upd)
    ∧ (set_createdDate upd = None -> note_createdDate (apply_set values n) = note_createdDate n)
    ∧ (set_completedDate upd = None ->
         note_completedDate (apply_set values n) = note_completedDate n).
Proof.
  intros Hpk Hn Hs Hu Hid Hb Hv Ht Hvalues.
  rewrite (owner_update_run w n params_id body upd values) by done.
  eexists. split; [reflexivity|]. simpl.
  split; [done|]. split; [done|]. split.
  { intros m. apply updated_elem; [apply Hpk|done]. }
  split.
  { rewrite (update_perm _ (apply_set values)). by rewrite length_fmap. }
  split; [by apply updated_pkey|].
  unfold bound_values in Hvalues. rewrite Ht in Hvalues.
  destruct (date_param (set_createdDate upd)) as [c|] eqn:Hc; [|done].
  destruct (date_param (set_completedDate upd)) as [d|] eqn:Hd; [|done].
  injection Hvalues as <-. simpl.
  repeat split; try done.
  - intros Hnone. rewrite Hnone in Hc. simpl in Hc. by injection Hc as <-.
  - intros Hnone. rewrite Hnone in Hd. simpl in Hd. by injection Hd as <-.
Qed.

(** X13. An owner's delete removes that note and no other: for a note [n] of
    the caller, delete answers 200; afterwards the table holds every other
    note as before and no longer holds [n], users and session are untouched,
    and a second delete of the same id answers 404 and changes nothing. *)
Theorem owner_delete_removes_only_that_note (w : World) (n : Note) (params_id : string) :
  notes_pkey (w_db w) ->
  n ∈ notes (w_db w) ->
  userId (w_session w) = Some (note_userId n) -> note_userId n ≠ 0 ->
  parseInt params_id = Some (note_id n) ->
  ∃ w',
    handle (DeleteNote params_id) w
    = (Return {| res_status := 200;
                 res_body := message_json "Anotação excluída com sucesso" |}, w')
    ∧ w_session w' = w_session w
    ∧ users (w_db w') = users (w_db w)
    ∧ (∀ m, m ∈ notes (w_db w') <-> m ∈ notes (w_db w) ∧ note_id m ≠ note_id n)
    ∧ (n ∉ notes (w_db w'))
    ∧ notes_pkey (w_db w')
    ∧ handle (DeleteNote params_id) w' = (Return note_not_found, w').
Proof.
  intros Hpk Hn Hs Hu Hid.
  set (db' := with_notes (w_db w)
                (filter (λ x, ¬ id_and_owner (note_id n) (note_userId n) x) (notes (w_db w)))
                (notes_id_seq (w_db w))).
  assert (∀ m, m ∈ notes db' <-> m ∈ notes (w_db w) ∧ note_id m ≠ note_id n) as Hmem.
  { intros m. simpl. rewrite list_elem_of_filter. split.
    - intros [HP Hm]. split; [done|]. intros Hmid. apply HP.
      assert (m = n) as -> by (eapply pkey_unique; [apply Hpk|done..]). done.
    - intros [Hm Hmid]. split; [|done]. by intros [? _]. }
  assert (notes_pkey db') as Hpk'.
  { eapply (step_pkey _ _ (w_session w, DeleteNote params_id)); [|exact Hpk].
    by eapply (step_delete _ _ _ (λ x, ¬ id_and_owner (note_id n) (note_userId n) x)). }
  exists (world db' (w_session w)). split.
  { rewrite (DELETE_notes_id_run _ (note_userId n)) by done. rewrite Hid.
    unfold deleteNote. rewrite decide_True by by apply (pkey_int4 (w_db w)).
    rewrite filter_own by (done || apply Hpk). simpl. done. }
  split; [done|]. split; [done|]. split; [exact Hmem|].
  split; [intros Hin; apply Hmem in Hin as [_ ?]; done|].
  split; [exact Hpk'|].
  apply (not_found_iff_no_own_note_delete (world db' (w_session w)) (note_userId n)
           params_id (note_id n)); try done; [by apply (pkey_int4 (w_db w))|].
  intros Hex. apply Exists_exists in Hex as (m & Hm & Hmid & _).
  apply Hmem in Hm as [_ ?]. done.
Qed.

(** *** What register and login read of a body *)

(** X14. Register reads the keys [name], [email] and [password] of the body
    and login the keys [email] and [password]; every other key is dropped by
    validation, so a client cannot choose its user id or supply a stored
    hash: two bodies that agree on those keys have the same outcome. *)
Theorem auth_bodies_read_only_credentials (w : World) (o1 o2 : gmap string json) :
  (∀ salt,
     (∀ k, k ∈ ["name"; "email"; "password"] -> o1 !! k = o2 !! k) ->
     handle (Register salt (JObj o1)) w = handle (Register salt (JObj o2)) w)
  ∧ ((∀ k, k ∈ ["email"; "password"] -> o1 !! k = o2 !! k) ->
     handle (Login (JObj o1)) w = handle (Login (JObj o2)) w).
Proof.
  split.
  - intros salt Hk. rewrite !POST_auth_register_run. unfold insertUserSchema.
    rewrite (Hk "name"), (Hk "email"), (Hk "password");
      [done|repeat first [apply list_elem_of_here|apply list_elem_of_further]..].
  - intros Hk. rewrite !POST_auth_login_run. unfold loginSchema.
    rewrite (Hk "email"), (Hk "password");
      [done|repeat first [apply list_elem_of_here|apply list_elem_of_further]..].
Qed.

(** *** The client: filters and forms *)

(** X15. The filters of the dashboard partition the list: "all" shows every
    note; "todo" and "completed" each show a sublist of the list, that is,
    some of its notes in the order of the list; no note is shown by both;
    and together they show every note exactly once. *)
Theorem filters_partition (l : list Note) :
  filteredNotes FilterType.all l = l
  ∧ filteredNotes FilterType.todo l `sublist_of` l
  ∧ filteredNotes FilterType.completed l `sublist_of` l
  ∧ filteredNotes FilterType.todo l ++ filteredNotes FilterType.completed l ≡ₚ l
  ∧ (∀ n, n ∈ filteredNotes FilterType.todo l -> n ∉ filteredNotes FilterType.completed l)
  ∧ (∀ n, n ∈ l <->
          n ∈ filteredNotes FilterType.todo l ∨ n ∈ filteredNotes FilterType.completed l)
  ∧ (∀ n, n ∈ filteredNotes FilterType.todo l <-> n ∈ l ∧ note_status n = A_Fazer)
  ∧ (∀ n, n ∈ filteredNotes FilterType.completed l <-> n ∈ l ∧ note_status n = Concluida)
  ∧ (length (filteredNotes FilterType.todo l) + length (filteredNotes FilterType.completed l)
     = length l)%nat.
Proof.
  unfold filteredNotes.
  assert (filter (shown FilterType.completed) l
          = filter (λ n, ¬ shown FilterType.todo n) l) as Hc.
  { apply list_filter_iff. intros n. simpl. by destruct (note_status n). }
  split; [by apply filter_all|].
  split; [apply sublist_filter|]. split; [apply sublist_filter|].
  split; [rewrite Hc; apply filter_app_complement|].
  split.
  { intros n Ht Hcm. apply list_elem_of_filter in Ht as [Ht _], Hcm as [Hcm _].
    simpl in *. by destruct (note_status n). }
  split.
  { intros n. rewrite !list_elem_of_filter. simpl. split.
    - intros Hn. destruct (note_status n); [left|right]; done.
    - intros [[_ ?]|[_ ?]]; done. }
  split.
  { intros n. rewrite list_elem_of_filter. simpl.
    destruct (note_status n); split; intros [? ?]; done. }
  split.
  { intros n. rewrite list_elem_of_filter. simpl.
    destruct (note_status n); split; intros [? ?]; done. }
  rewrite <- length_app. rewrite Hc. by rewrite filter_app_complement.
Qed.

Lemma insert_note_json_parse (data : InsertNote) :
  in_title data ≠ "" -> in_completedDate data ≠ "" ->
  insertNoteSchema (insert_note_json data) = success data.
Proof.
  intros Ht Hd. apply insertNoteSchema_success. eexists. split; [reflexivity|].
  repeat split; done.
Qed.

Lemma insert_note_json_parse_partial (data : InsertNote) :
  in_title data ≠ "" -> in_completedDate data ≠ "" ->
  insertNoteSchema_partial (insert_note_json data)
  = success {| set_title := Some (in_title data);
               set_createdDate := Some (in_createdDate data);
               set_completedDate := Some (in_completedDate data);
               set_status := Some (in_status data) |}.
Proof.
  intros Ht Hd. unfold insertNoteSchema_partial, insert_note_json.
  change ((<[ "title" := JStr (in_title data) ]>
            (<[ "createdDate" := JStr (in_createdDate data) ]>
            (<[ "completedDate" := JStr (in_completedDate data) ]>
            (<[ "status" := JStr (status_text (in_status data)) ]> ∅)))
            : gmap string json) !! "title") with (Some (JStr (in_title data))).
  change ((<[ "title" := JStr (in_title data) ]>
            (<[ "createdDate" := JStr (in_createdDate data) ]>
            (<[ "completedDate" := JStr (in_completedDate data) ]>
            (<[ "status" := JStr (status_text (in_status data)) ]> ∅)))
            : gmap string json) !! "createdDate") with (Some (JStr (in_createdDate data))).
  change ((<[ "title" := JStr (in_title data) ]>
            (<[ "createdDate" := JStr (in_createdDate data) ]>
            (<[ "completedDate" := JStr (in_completedDate data) ]>
            (<[ "status" := JStr (status_text (in_status data)) ]> ∅)))
            : gmap string json) !! "completedDate")
    with (Some (JStr (in_completedDate data))).
  change ((<[ "title" := JStr (in_title data) ]>
            (<[ "createdDate" := JStr (in_createdDate data) ]>
            (<[ "completedDate" := JStr (in_completedDate data) ]>
            (<[ "status" := JStr (status_text (in_status data)) ]> ∅)))
            : gmap string json) !! "status")
    with (Some (JStr (status_text (in_status data)))).
  unfold z_optional, title_schema, createdDate_schema, completedDate_schema.
  assert (z_enum_status ["status"] (Some (JStr (status_text (in_status data))))
          = success (in_status data)) as -> by (by apply z_enum_status_success).
  rewrite !z_string_one_check. simpl.
  apply length_lt_1 in Ht, Hd. by rewrite Ht, Hd.
Qed.

(** X16. The note form and the server agree: the JSON rendering of a form's
    data is read back by [insertNoteSchema] as that same data exactly when
    the title and the completion date are not empty.  Then the form, when no
    note is being edited, submits the create request whose body is that
    rendering, and, when a note is being edited, the update request for the
    id of that note with the same body; otherwise validation fails and
    nothing is submitted. *)
Theorem note_form_round_trip (editingNote : option Note) (values : InsertNote) :
  (insertNoteSchema (insert_note_json values) = success values
   <-> in_title values ≠ "" ∧ in_completedDate values ≠ "")
  ∧ (in_title values ≠ "" ∧ in_completedDate values ≠ "" ->
     handleSubmit None values = Some (CreateNote (insert_note_json values))
     ∧ ∀ note, handleSubmit (Some note) values
               = Some (UpdateNote (number_toString (note_id note)) (insert_note_json values)))
  ∧ (in_title values = "" ∨ in_completedDate values = "" ->
     handleSubmit editingNote values = None).
Proof.
  assert (insertNoteSchema (insert_note_json values) = success values
          <-> in_title values ≠ "" ∧ in_completedDate values ≠ "") as Hiff.
  { split.
    - intros Hp. apply insertNoteSchema_success in Hp as (o & _ & _ & ? & _ & _ & ? & _). done.
    - intros [? ?]. by apply insert_note_json_parse. }
  split; [exact Hiff|]. split.
  - intros Hok. unfold handleSubmit. rewrite (proj2 Hiff Hok). done.
  - intros Hbad. unfold handleSubmit.
    destruct (insertNoteSchema (insert_note_json values)) as [data|] eqn:Hp; [|done].
    apply insertNoteSchema_success in Hp as (o & Ho & Ht & Ht' & _ & Hd & Hd' & _).
    injection Ho as <-.
    assert (in_title data = in_title values) as Et by (by injection Ht).
    assert (in_completedDate data = in_completedDate values) as Ed by (by injection Hd).
    destruct Hbad; congruence.
Qed.

(** The row that stands for [n] once the edit form has overwritten it. *)
Lemma apply_set_all (data : InsertNote) (c d : string) (n : Note) :
  apply_set {| set_title := Some (in_title data); set_createdDate := Some c;
               set_completedDate := Some d; set_status := Some (in_status data) |} n
  = {| note_id := note_id n; note_userId := note_userId n;
       note_title := in_title data; note_createdDate := c;
       note_completedDate := d; note_status := in_status data |}.
Proof. done. Qed.

(** X17. Submitting the edit form overwrites the note being edited: for a
    note [n] of the caller, in a database that respects the primary key, and
    form data with a title that is not empty and has no character U+0000, a
    completion date and dates the database accepts, the form submits the
    update request for [n]'s id whose body is the rendering of the data, and
    that request is answered 200 with the note that has [n]'s id and owner
    and the form's title, dates (as the database reads them back) and
    status; the table then holds that note instead of [n], and every other
    note as it was. *)
Theorem edit_form_overwrites (w : World) (n : Note) (data : InsertNote) (c d : string) :
  notes_pkey (w_db w) ->
  n ∈ notes (w_db w) ->
  userId (w_session w) = Some (note_userId n) -> note_userId n ≠ 0 ->
  parseInt (number_toString (note_id n)) = Some (note_id n) ->
  in_title data ≠ "" -> text_in (in_title data) = true ->
  in_completedDate data ≠ "" ->
  date_in (in_createdDate data) = Some c ->
  date_in (in_completedDate data) = Some d ->
  let n' := {| note_id := note_id n; note_userId := note_userId n;
               note_title := in_title data; note_createdDate := c;
               note_completedDate := d; note_status := in_status data |} in
  handleSubmit (Some n) data
  = Some (UpdateNote (number_toString (note_id n)) (insert_note_json data))
  ∧ ∃ w',
      handle (UpdateNote (number_toString (note_id n)) (insert_note_json data)) w
      = (Return (note_response n'), w')
      ∧ w_session w' = w_session w
      ∧ users (w_db w') = users (w_db w)
      ∧ (∀ m, m ∈ notes (w_db w')
              <-> m = n' ∨ (m ∈ notes (w_db w) ∧ note_id m ≠ note_id n)).
Proof.
  intros Hpk Hn Hs Hu Hid Ht Htext Hd Hc Hd' n'. split.
  { unfold handleSubmit. by rewrite insert_note_json_parse. }
  rewrite (owner_update_run w n _ _ _
             {| set_title := Some (in_title data); set_createdDate := Some c;
                set_completedDate := Some d; set_status := Some (in_status data) |}
             Hpk Hn Hs Hu Hid (insert_note_json_parse_partial data Ht Hd) eq_refl);
    cycle 1.
  { unfold bound_values. simpl. by rewrite Htext, Hc, Hd'. }
  eexists. split; [reflexivity|]. simpl. split; [done|]. split; [done|].
  intros m. unfold n'. rewrite <- (apply_set_all data c d n).
  apply updated_elem; [apply Hpk|done].
Qed.

(** X18. Opening a note in the edit form and submitting the form as it is
    changes no note: for a note [n] of the caller, in a database that
    respects the primary key, whose title is not empty and has no character
    U+0000, whose completion date is not empty and whose dates the database
    reads back as they are, the form submits the update request for [n]'s
    id, and that request is answered 200 with [n] itself.  Afterwards the
    table holds the same notes as before, [n] among them, possibly in
    another order (the database has written [n] anew); users, sequences and
    session are as they were; and what list returns to the caller is a
    rearrangement of what it returned before. *)
Theorem edit_form_unchanged_is_noop (w : World) (n : Note) (today : string) :
  notes_pkey (w_db w) ->
  n ∈ notes (w_db w) ->
  userId (w_session w) = Some (note_userId n) -> note_userId n ≠ 0 ->
  parseInt (number_toString (note_id n)) = Some (note_id n) ->
  note_title n ≠ "" -> text_in (note_title n) = true ->
  note_completedDate n ≠ "" ->
  date_in (note_createdDate n) = Some (note_createdDate n) ->
  date_in (note_completedDate n) = Some (note_completedDate n) ->
  handleSubmit (Some n) (handleEdit today n)
  = Some (UpdateNote (number_toString (note_id n)) (insert_note_json (handleEdit today n)))
  ∧ ∃ w' listed listed',
      handle (UpdateNote (number_toString (note_id n))
                (insert_note_json (handleEdit today n))) w
      = (Return (note_response n), w')
      ∧ w_session w' = w_session w
      ∧ users (w_db w') = users (w_db w)
      ∧ users_id_seq (w_db w') = users_id_seq (w_db w)
      ∧ notes_id_seq (w_db w') = notes_id_seq (w_db w)
      ∧ notes (w_db w') ≡ₚ notes (w_db w)
      ∧ n ∈ notes (w_db w')
      ∧ handle ListNotes w
        = (Return {| res_status := 200; res_body := JArr (note_json <$> listed) |}, w)
      ∧ handle ListNotes w'
        = (Return {| res_status := 200; res_body := JArr (note_json <$> listed') |}, w')
      ∧ listed' ≡ₚ listed.
Proof.
  intros Hpk Hn Hs Hu Hid Ht Htext Hd Hc Hd'.
  assert (handleEdit today n
          = {| in_title := note_title n; in_createdDate := note_createdDate n;
               in_completedDate := note_completedDate n; in_status := note_status n |}) as ->.
  { unfold handleEdit. by rewrite decide_False. }
  split.
  { unfold handleSubmit. by rewrite insert_note_json_parse. }
  rewrite (owner_update_run w n _ _ _
             {| set_title := Some (note_title n); set_createdDate := Some (note_createdDate n);
                set_completedDate := Some (note_completedDate n);
                set_status := Some (note_status n) |}
             Hpk Hn Hs Hu Hid
             (insert_note_json_parse_partial
                {| in_title := note_title n; in_createdDate := note_createdDate n;
                   in_completedDate := note_completedDate n; in_status := note_status n |}
                Ht Hd) eq_refl); cycle 1.
  { unfold bound_values. simpl. by rewrite Htext, Hc, Hd'. }
  set (values := {| set_title := Some (note_title n);
                    set_createdDate := Some (note_createdDate n);
                    set_completedDate := Some (note_completedDate n);
                    set_status := Some (note_status n) |}).
  assert (apply_set values n = n) as Hsame by (by destruct n).
  assert (filter (λ x, ¬ id_and_owner (note_id n) (note_userId n) x) (notes (w_db w))
          ++ (apply_set values
                <$> filter (id_and_owner (note_id n) (note_userId n)) (notes (w_db w)))
          ≡ₚ notes (w_db w)) as Hperm.
  { rewrite filter_own by (done || apply Hpk). simpl. rewrite Hsame.
    rewrite <- (filter_own (notes (w_db w)) n) by (done || apply Hpk).
    rewrite Permutation_app_comm. apply filter_app_complement. }
  rewrite Hsame.
  eexists _, (filter (λ x, note_userId x = note_userId n) (notes (w_db w))), _.
  split; [reflexivity|]. simpl.
  split; [done|]. split; [done|]. split; [done|]. split; [done|].
  split; [exact Hperm|]. split; [by rewrite Hperm|].
  split.
  { unfold GET_notes. rewrite (requireAuth_authenticated _ _ (note_userId n)) by done.
    run. by rewrite world_eta. }
  split.
  { unfold GET_notes. rewrite (requireAuth_authenticated _ _ (note_userId n)) by done.
    run. reflexivity. }
  simpl. by rewrite Hperm.
Qed.

Lemma insert_user_json_parse (name email password : string) :
  offending_fields name email password = [] ->
  insertUserSchema (insert_user_json name email password)
  = success {| iu_name := name; iu_email := email; iu_password := password |}.
Proof.
  intros Hoff. apply insertUserSchema_success. eexists. split; [reflexivity|].
  repeat split; done.
Qed.

Lemma registerFormSchema_valid (values : RegisterForm) :
  registerFormSchema values = inr values
  <-> offending_fields (rf_name values) (rf_email values) (rf_password values) = []
      ∧ rf_password values = rf_confirmPassword values.
Proof.
  destruct values as [n e p c]. unfold registerFormSchema, offending_fields. simpl.
  destruct (decide (n = "")) as [->|Hn]; [simpl; split; [done|by intros [? _]]|].
  apply length_lt_1 in Hn. rewrite Hn. simpl.
  destruct (is_email e); [|simpl; split; [done|by intros [? _]]]. simpl.
  destruct (decide (String.length p < 6)%nat) as [Hp|Hp].
  { apply Nat.ltb_lt in Hp. rewrite Hp. simpl. split; [done|by intros [? _]]. }
  apply Nat.ltb_nlt in Hp as Hp'. rewrite Hp'. simpl.
  destruct (decide (p = c)) as [<-|Hpc].
  - assert ((String.length p <? 1)%nat = false) as -> by (apply Nat.ltb_nlt; lia).
    done.
  - destruct (String.length c <? 1)%nat; simpl; split; try done; by intros [_ ?].
Qed.

(** X19. The registration form submits only what the server's validation
    accepts.  The form is valid exactly when no field offends (a name, an
    email of the right form, a password of at least 6 characters) and the
    two passwords are equal; two different passwords are reported under
    [confirmPassword] and nothing is submitted.  What a valid form submits
    is a registration body without [confirmPassword] that [insertUserSchema]
    accepts, so that the server never answers it with a validation error:
    the answer is success, DuplicateEmail or the internal error (500).  Over
    a database that respects the constraints of [users] and whose sequence
    of user ids has a value left, and for a name, an email and a hash
    without the character U+0000, the answer is success or DuplicateEmail. *)
Theorem register_form_submits_valid (salt : string) (values : RegisterForm) :
  (registerFormSchema values = inr values
   <-> offending_fields (rf_name values) (rf_email values) (rf_password values) = []
       ∧ rf_password values = rf_confirmPassword values)
  ∧ (rf_password values ≠ rf_confirmPassword values ->
     register_handleSubmit salt values = None
     ∧ ∃ errors, registerFormSchema values = inl errors
                 ∧ (["confirmPassword"], "Senhas não coincidem") ∈ errors)
  ∧ (∀ r, register_handleSubmit salt values = Some r ->
       ∃ o,
         r = Register salt (JObj o)
         ∧ o !! "confirmPassword" = None
         ∧ rf_password values = rf_confirmPassword values
         ∧ insertUserSchema (JObj o)
           = success {| iu_name := rf_name values; iu_email := rf_email values;
                        iu_password := rf_password values |}
         ∧ (∀ w, ∃ resp w',
              handle r w = (Return resp, w')
              ∧ (res_status resp = 200
                 ∨ (resp = duplicate_email ∧ w' = w)
                 ∨ resp = internal_error "Erro interno do servidor"))
         ∧ (∀ w, users_pkey (w_db w) ->
              int4 (users_id_seq (w_db w)) ->
              text_in (rf_name values) = true ->
              text_in (rf_email values) = true ->
              text_in (bcrypt_hash (rf_password values) 10 salt) = true ->
              ∃ resp w', handle r w = (Return resp, w')
                         ∧ (res_status resp = 200 ∨ (resp = duplicate_email ∧ w' = w)))).
Proof.
  split; [apply registerFormSchema_valid|]. split.
  - intros Hne. unfold register_handleSubmit, registerFormSchema.
    rewrite decide_False by done.
    destruct (_ ++ [_]) as [|error errors] eqn:Herr.
    { by apply app_nil in Herr as [_ ?]. }
    split; [done|]. eexists. split; [reflexivity|].
    rewrite <- Herr. apply elem_of_app. right. apply list_elem_of_here.
  - intros r Hr. unfold register_handleSubmit in Hr.
    destruct (registerFormSchema values) as [errors|data] eqn:Hform; [done|].
    assert (data = values) as ->.
    { unfold registerFormSchema in Hform.
      destruct (_ ++ _) in Hform; [by injection Hform|done]. }
    apply registerFormSchema_valid in Hform as [Hoff Heq].
    injection Hr as <-. eexists. split; [reflexivity|]. split; [reflexivity|].
    split; [done|].
    pose proof (insert_user_json_parse _ _ _ Hoff) as Hparse. split; [exact Hparse|].
    split.
    + intros w. rewrite POST_auth_register_run. rewrite Hparse.
      destruct (head _); [eexists _, _; split; [reflexivity|by right; left]|].
      destruct (_ && _); [|eexists _, _; split; [reflexivity|by right; right]].
      case_decide; [|eexists _, _; split; [reflexivity|by right; right]].
      case_decide; eexists _, _; (split; [reflexivity|]); [by right; right|by left].
    + intros w (_ & Hlt & _ & _) Hseq Hname Hemail Hhash. rewrite POST_auth_register_run.
      rewrite Hparse.
      destruct (head _); [eexists _, _; split; [reflexivity|by right]|].
      simpl. rewrite Hname, Hemail, Hhash. simpl.
      rewrite decide_True by done.
      case_decide as Hfresh.
      * exfalso. apply Exists_exists in Hfresh as (x & Hx & Hid).
        rewrite Forall_forall in Hlt. specialize (Hlt x Hx). lia.
      * eexists _, _. split; [reflexivity|by left].
Qed.

(** *** Ids of notes *)

(** X20. The id of a note is never given to another note: an id that the
    sequence has already issued and that no note carries (the id of a deleted
    note) is carried by no note after any sequence of requests. *)
Theorem note_ids_never_reused
    (db : Db) (calls : list (SessionData * Request)) (id : Z) :
  id < notes_id_seq db ->
  ¬ Exists (λ n, note_id n = id) (notes db) ->
  ¬ Exists (λ n, note_id n = id) (notes (serve_all db calls)).
Proof.
  intros Hid Hnone Hex. apply Exists_exists in Hex as (n' & Hn' & Hid').
  destruct (serve_all_provenance calls db) as [_ Hprov].
  destruct (Hprov n' Hn') as [(n & Hn & Heq & _)|(Hnew & _)].
  - apply Hnone. apply Exists_exists. exists n. split; [done|]. congruence.
  - lia.
Qed.
End Properties.

(** ** The properties on the example data *)

Lemma protected_requires_session_witness :
  @handle reference ListNotes (world ana_note_db anonymous)
  = (Return unauthenticated, world ana_note_db anonymous).
Proof.
  apply (proj1 (@protected_requires_session reference ListNotes (world ana_note_db anonymous)
                  eq_refl eq_refl)).
Defined.

Lemma empty_db_pkey : notes_pkey empty_db.
Proof. split; [apply NoDup_nil_2|apply Forall_nil_2]. Defined.

Lemma serve_all_pkey_witness :
  notes_pkey
    (@serve_all reference empty_db
       [(anonymous, Register "salt1" ana_body);
        (signed_in 1, CreateNote pay_bills_body);
        (signed_in 1, CreateNote pay_bills_body);
        (signed_in 1, DeleteNote "1")]).
Proof. apply (@serve_all_pkey reference _ empty_db empty_db_pkey). Defined.

Lemma ana_note_db_pkey : notes_pkey ana_note_db.
Proof.
  split.
  - change (NoDup [1]). apply NoDup_singleton.
  - change (Forall (λ n, int4 (note_id n) ∧ note_id n < 2) [pay_bills]).
    apply Forall_singleton. done.
Defined.

Lemma pay_bills_in_ana_note_db : pay_bills ∈ notes ana_note_db.
Proof. change (pay_bills ∈ [pay_bills]). apply list_elem_of_here. Defined.

Lemma non_owner_update_delete_not_found_witness :
  @handle reference (DeleteNote "1") (world ana_note_db (signed_in 2))
  = (Return note_not_found, world ana_note_db (signed_in 2))
  ∧ @handle reference (UpdateNote "1" (object [("title", JStr "Mine now")]))
      (world ana_note_db (signed_in 2))
    = (Return note_not_found, world ana_note_db (signed_in 2))
  ∧ ∀ upd, @executable reference upd ->
      @updateNote reference (Some 1) 2 upd ana_note_db = (Return None, ana_note_db).
Proof.
  pose proof (@non_owner_update_delete_not_found reference
                (world ana_note_db (signed_in 2)) pay_bills 2 "1"
                ana_note_db_pkey pay_bills_in_ana_note_db eq_refl
                ltac:(done) ltac:(done) eq_refl) as (_ & Hdelete & Hupdate & Hput & _).
  split; [exact Hdelete|]. split; [|exact Hupdate].
  apply (Hput _ {| set_title := Some "Mine now"; set_createdDate := None;
                   set_completedDate := None; set_status := None |}).
  - vm_compute; reflexivity.
  - split; [reflexivity|]. split; [reflexivity|]. split; eexists; reflexivity.
Defined.

(** C1, as first stated, fails: Bob (user 2) sends an update for Ana's note 1
    with an empty title; the handler answers 400 with the validation message,
    not 404. *)
Lemma non_owner_update_invalid_body :
  pay_bills ∈ notes ana_note_db
  ∧ note_userId pay_bills = 1
  ∧ @handle reference (UpdateNote "1" (object [("title", JStr "")]))
      (world ana_note_db (signed_in 2))
    = (Return {| res_status := 400;
                 res_body := message_json
                   (one_issue_message "Nome da tarefa é obrigatório" "title") |},
       world ana_note_db (signed_in 2)).
Proof.
  split; [exact pay_bills_in_ana_note_db|]. split; [reflexivity|].
  vm_compute. reflexivity.
Qed.

Lemma create_owner_from_session_witness :
  ∃ u note,
    userId (signed_in 1) = Some u
    ∧ note_response pay_bills = note_response note
    ∧ note_userId note = u
    ∧ notes ana_note_db = notes two_users_db ++ [note].
Proof.
  apply (proj1 (@create_owner_from_session reference (world two_users_db (signed_in 1)))
           pay_bills_forged_body (note_response pay_bills) (world ana_note_db (signed_in 1)));
    vm_compute; reflexivity.
Defined.

Lemma two_users_db_pkey : notes_pkey two_users_db.
Proof. split; [apply NoDup_nil_2|apply Forall_nil_2]. Defined.

Lemma ana_is_a_user : Exists (λ x, user_id x = 1) (users two_users_db).
Proof. apply Exists_cons_hd. reflexivity. Defined.

Lemma two_users_db_seq : int4 (notes_id_seq two_users_db).
Proof. done. Defined.

Lemma create_then_list_witness :
  ∃ note w1 listed,
    @handle reference (CreateNote pay_bills_short_date_body) (world two_users_db (signed_in 1))
    = (Return (note_response note), w1)
    ∧ note_id note = notes_id_seq two_users_db
    ∧ note_userId note = 1
    ∧ note_title note = "Pay bills"
    ∧ note_createdDate note = "2024-01-01"
    ∧ note_completedDate note = "2024-01-05"
    ∧ note_status note = A_Fazer
    ∧ @handle reference ListNotes w1
      = (Return {| res_status := 200; res_body := JArr (note_json <$> listed) |}, w1)
    ∧ note ∈ listed
    ∧ (∀ m, m ∈ listed -> note_id m = note_id note -> m = note).
Proof.
  destruct (@create_then_list reference (world two_users_db (signed_in 1)) 1
              pay_bills_short_date_body pay_bills_short_date "2024-01-01" "2024-01-05"
              two_users_db_pkey eq_refl ltac:(done) ana_is_a_user two_users_db_seq
              ltac:(vm_compute; reflexivity) eq_refl
              ltac:(vm_compute; reflexivity) ltac:(vm_compute; reflexivity))
    as (note & w1 & listed & Hrun & Hid & Hu & Ht & Hc & Hd & Hst & Hlist & Hin & Hone & _).
  exists note, w1, listed. repeat (split; [assumption|]). assumption.
Defined.

(** C6, as first stated, fails: a note to be completed on "2024-1-5", a date
    the database accepts, is created and stored with the completion date
    "2024-01-05"; the one note that list then returns does not have the
    submitted completion date. *)
Lemma create_then_list_date_rewritten :
  @insertNoteSchema reference pay_bills_short_date_body = success pay_bills_short_date
  ∧ in_completedDate pay_bills_short_date = "2024-1-5"
  ∧ @handle reference (CreateNote pay_bills_short_date_body) (world two_users_db (signed_in 1))
    = (Return (note_response pay_bills_jan_5),
       world (with_notes two_users_db [pay_bills_jan_5] 2) (signed_in 1))
  ∧ @handle reference ListNotes (world (with_notes two_users_db [pay_bills_jan_5] 2) (signed_in 1))
    = (Return {| res_status := 200; res_body := JArr (note_json <$> [pay_bills_jan_5]) |},
       world (with_notes two_users_db [pay_bills_jan_5] 2) (signed_in 1))
  ∧ note_completedDate pay_bills_jan_5 = "2024-01-05"
  ∧ note_completedDate pay_bills_jan_5 ≠ in_completedDate pay_bills_short_date.
Proof. repeat split; try (vm_compute; reflexivity). vm_compute. discriminate. Qed.

Lemma create_validates_then_persists_witness :
  @handle reference (CreateNote pay_bills_no_date_body) (world two_users_db (signed_in 1))
  = (Return (internal_error "Erro ao criar anotação"), world two_users_db (signed_in 1)).
Proof.
  refine (proj1 (proj2 (proj2 (@create_validates_then_persists reference
            (world two_users_db (signed_in 1)) 1 pay_bills_no_date_body
            two_users_db_pkey eq_refl ltac:(done) ana_is_a_user two_users_db_seq)))
          {| in_title := "Pay bills"; in_createdDate := "2024-02-30";
             in_completedDate := "2024-03-01"; in_status := A_Fazer |} _ _).
  - vm_compute; reflexivity.
  - right. left. vm_compute; reflexivity.
Defined.

(** C8, as first stated, fails: a note created on "2024-02-30", which is no
    calendar date, passes validation, is refused by the database, and is
    answered 500 (InternalError), not ValidationError. *)
Lemma create_with_malformed_date :
  iso_date "2024-02-30" = None
  ∧ @insertNoteSchema reference pay_bills_no_date_body
    = success {| in_title := "Pay bills"; in_createdDate := "2024-02-30";
                 in_completedDate := "2024-03-01"; in_status := A_Fazer |}
  ∧ @handle reference (CreateNote pay_bills_no_date_body) (world two_users_db (signed_in 1))
    = (Return {| res_status := 500; res_body := message_json "Erro ao criar anotação" |},
       world two_users_db (signed_in 1)).
Proof. repeat split; vm_compute; reflexivity. Qed.

Lemma register_failures_witness :
  @handle reference (Register "salt3" ana_body) (world two_users_db anonymous)
  = (Return duplicate_email, world two_users_db anonymous).
Proof.
  apply (proj2 (proj2 (@register_failures reference "salt3" ana_body
                         (world two_users_db anonymous)))
           {| iu_name := "Ana"; iu_email := "ana@x.com"; iu_password := "secret1" |} ana).
  - vm_compute; reflexivity.
  - change (ana ∈ users two_users_db). vm_compute. apply list_elem_of_here.
  - reflexivity.
Defined.

(** C4, as first stated, fails: Ana's email is registered, and a second
    registration with that email and the password "abc" is answered with the
    validation message for the password, not with DuplicateEmail. *)
Lemma register_existing_email_short_password :
  (∃ existing, existing ∈ users two_users_db ∧ user_email existing = "ana@x.com")
  ∧ @handle reference (Register "salt3" ana_again_body) (world two_users_db anonymous)
    = (Return {| res_status := 400;
                 res_body := message_json
                   (one_issue_message "Senha deve ter pelo menos 6 caracteres" "password") |},
       world two_users_db anonymous)
  ∧ message_json (one_issue_message "Senha deve ter pelo menos 6 caracteres" "password")
    ≠ res_body duplicate_email.
Proof.
  split; [|split].
  - exists ana. split; [|reflexivity]. vm_compute. apply list_elem_of_here.
  - vm_compute; reflexivity.
  - vm_compute. discriminate.
Qed.

Lemma password_only_hashed_never_returned_witness :
  users ana_db = [ana]
  ∧ user_password ana = digest_hash "secret1" 10 "salt1"
  ∧ ∃ user fields,
      user ∈ users ana_db
      ∧ profile_response ana = profile_response user
      ∧ res_body (profile_response ana) = JObj {[ "user" := JObj fields ]}
      ∧ dom fields = {[ "id"; "name"; "email" ]}
      ∧ fields !! "id" = Some (JNum (user_id user))
      ∧ fields !! "name" = Some (JStr (user_name user))
      ∧ fields !! "email" = Some (JStr (user_email user))
      ∧ ∀ hash, profile_response
                  {| user_id := user_id user; user_name := user_name user;
                     user_email := user_email user; user_password := hash |}
                = profile_response ana.
Proof.
  split; [vm_compute; reflexivity|]. split; [reflexivity|].
  apply (proj1 (@password_only_hashed_never_returned reference
                  (Register "salt1" ana_body) (world empty_db anonymous)
                  (profile_response ana) (world ana_db (signed_in 1))
                  eq_refl ltac:(vm_compute; reflexivity) eq_refl)).
Defined.

Lemma markCompleted_twice_witness :
  ∃ w1 w2,
    @handle reference (@markCompletedMutation reference "2024-03-05" 1)
      (world ana_note_db (signed_in 1))
    = (Return (note_response (completed "2024-03-05" pay_bills)), w1)
    ∧ (∀ x, x ∈ notes (w_db w1) -> note_id x = 1 -> x = completed "2024-03-05" pay_bills)
    ∧ completed "2024-03-05" pay_bills ∈ notes (w_db w1)
    ∧ @handle reference (@markCompletedMutation reference "2024-03-06" 1) w1
      = (Return (note_response (completed "2024-03-06" pay_bills)), w2)
    ∧ (∀ x, x ∈ notes (w_db w2) -> note_id x = 1 -> x = completed "2024-03-06" pay_bills)
    ∧ completed "2024-03-06" pay_bills ∈ notes (w_db w2)
    ∧ note_status (completed "2024-03-05" pay_bills) = Concluida
    ∧ note_status (completed "2024-03-06" pay_bills) = Concluida
    ∧ note_completedDate (completed "2024-03-06" pay_bills) = "2024-03-06".
Proof.
  apply (@markCompleted_twice reference (world ana_note_db (signed_in 1)) pay_bills
           "2024-03-05" "2024-03-06" ana_note_db_pkey pay_bills_in_ana_note_db);
    first [done | vm_compute; reflexivity].
Defined.

Lemma note_owner_immutable_witness :
  (∀ n, n ∈ notes ana_note_db -> note_id n = 1 -> 1 = note_userId n)
  ∧ ((∃ n, n ∈ notes ana_note_db ∧ note_id n = 1)
     ∨ ∃ session body,
         (session, CreateNote body)
           ∈ [(signed_in 2, UpdateNote "1" pay_bills_forged_body);
              (signed_in 1, @markCompletedMutation reference "2024-03-05" 1)]
         ∧ userId session = Some 1).
Proof.
  pose proof (@note_owner_immutable reference ana_note_db
                [(signed_in 2, UpdateNote "1" pay_bills_forged_body);
                 (signed_in 1, @markCompletedMutation reference "2024-03-05" 1)]
                (completed "2024-03-05" pay_bills)
                ana_note_db_pkey
                ltac:(vm_compute; apply list_elem_of_here)) as (Hkeep & Hfrom & _).
  exact (conj Hkeep Hfrom).
Defined.

Lemma login_iff_credentials_match_witness :
  @handle reference (Login (login_body "ana@x.com" "secret1")) (world two_users_db anonymous)
  = (Return (profile_response ana), world two_users_db (signed_in 1)).
Proof.
  apply (proj1 (proj2 (@login_iff_credentials_match reference
                         (login_body "ana@x.com" "secret1") (world two_users_db anonymous)))
           {| lu_email := "ana@x.com"; lu_password := "secret1" |} ana);
    vm_compute; reflexivity.
Defined.

(** *** The scenario of the specification, run on the model *)

Example scenario_login_same_user :
  @handle reference (Login (login_body "ana@x.com" "secret1")) (world ana_db anonymous)
  = (Return (profile_response ana), world ana_db (signed_in 1)).
Proof. vm_compute. reflexivity. Qed.

Example scenario_unknown_email_and_wrong_password_alike :
  fst (@handle reference (Login (login_body "eve@x.com" "secret1")) (world ana_db anonymous))
  = fst (@handle reference (Login (login_body "ana@x.com" "secret2")) (world ana_db anonymous)).
Proof. vm_compute. reflexivity. Qed.

Example scenario_second_user_delete :
  @handle reference (DeleteNote "1") (world ana_note_db (signed_in 2))
  = (Return note_not_found, world ana_note_db (signed_in 2)).
Proof. vm_compute. reflexivity. Qed.

Example scenario_logout_then_list :
  let after_logout := snd (@handle reference Logout (world ana_note_db (signed_in 1))) in
  @handle reference ListNotes after_logout = (Return unauthenticated, after_logout).
Proof. vm_compute. reflexivity. Qed.

Example scenario_empty_update_refused :
  @handle reference (UpdateNote "1" (object [])) (world ana_note_db (signed_in 1))
  = (Return (internal_error "Erro ao atualizar anotação"), world ana_note_db (signed_in 1)).
Proof. vm_compute. reflexivity. Qed.

(** ** The further properties on the example data *)

Lemma empty_db_users_pkey : users_pkey empty_db.
Proof.
  split; [apply NoDup_nil_2|]. split; [apply Forall_nil_2|]. split; [done|apply NoDup_nil_2].
Defined.

Lemma serve_all_users_pkey_witness :
  users_pkey
    (@serve_all reference empty_db
       [(anonymous, Register "salt1" ana_body);
        (anonymous, Register "salt3" ana_body);
        (anonymous, Register "salt2" bob_body)]).
Proof. apply (@serve_all_users_pkey reference _ empty_db empty_db_users_pkey). Defined.


Lemma register_then_whoami_and_login_witness :
  ∃ data user,
    @insertUserSchema reference ana_body = success data
    ∧ profile_response ana = profile_response user
    ∧ user_id user = users_id_seq empty_db
    ∧ w_session (world ana_db (signed_in 1)) = signed_in (user_id user)
    ∧ @handle reference WhoAmI (world ana_db (signed_in 1))
      = (Return (profile_response ana), world ana_db (signed_in 1))
    ∧ (digest_compare (iu_password data) (digest_hash (iu_password data) 10 "salt1") = true ->
       ∀ o session,
         o !! "email" = Some (JStr (iu_email data)) ->
         o !! "password" = Some (JStr (iu_password data)) ->
         @handle reference (Login (JObj o)) (world (w_db (world ana_db (signed_in 1))) session)
         = (Return (profile_response ana), world ana_db (signed_in 1))).
Proof.
  apply (@register_then_whoami_and_login reference "salt1" ana_body
           (world empty_db anonymous) (profile_response ana) (world ana_db (signed_in 1))
           empty_db_users_pkey);
    [vm_compute; reflexivity|reflexivity].
Defined.

Lemma unauthenticated_iff_no_truthy_user_witness :
  fst (@handle reference ListNotes (world ana_note_db (signed_in 0))) = Return unauthenticated
  <-> userId (signed_in 0) = None ∨ userId (signed_in 0) = Some 0.
Proof.
  apply (@unauthenticated_iff_no_truthy_user reference ListNotes
           (world ana_note_db (signed_in 0)) eq_refl).
Defined.

Lemma no_user_7 : ¬ Exists (λ x, user_id x = 7) (users two_users_db).
Proof.
  intros Hex. apply Exists_exists in Hex as (x & Hx & Hid).
  change (x ∈ [ana; {| user_id := 2; user_name := "Bob"; user_email := "bob@x.com";
                       user_password := digest_hash "hunter22" 10 "salt2" |}]) in Hx.
  apply elem_of_cons in Hx as [->|Hx]; [done|].
  apply list_elem_of_singleton in Hx as ->. done.
Defined.

Lemma whoami_orphaned_witness :
  @handle reference WhoAmI (world two_users_db (signed_in 7))
  = (Return {| res_status := 404; res_body := message_json "Usuário não encontrado" |},
     world two_users_db (signed_in 7)).
Proof.
  apply (@whoami_orphaned reference (world two_users_db (signed_in 7)) 7 eq_refl);
    [done|exact no_user_7].
Defined.

Lemma list_only_own_notes_witness :
  ∃ listed,
    @handle reference ListNotes (world ana_note_db (signed_in 2))
    = (Return {| res_status := 200; res_body := JArr (note_json <$> listed) |},
       world ana_note_db (signed_in 2))
    ∧ (∀ n, n ∈ listed <-> n ∈ notes ana_note_db ∧ note_userId n = 2)
    ∧ listed `sublist_of` notes ana_note_db.
Proof.
  apply (@list_only_own_notes reference (world ana_note_db (signed_in 2)) 2 eq_refl).
  done.
Defined.

Lemma not_found_iff_no_own_note_witness :
  (@handle reference (DeleteNote "5") (world ana_note_db (signed_in 1))
   = (Return note_not_found, world ana_note_db (signed_in 1))
   <-> ¬ Exists (id_and_owner 5 1) (notes ana_note_db))
  ∧ @handle reference (DeleteNote "99999999999") (world ana_note_db (signed_in 1))
    = (Return (internal_error "Erro ao excluir anotação"), world ana_note_db (signed_in 1)).
Proof.
  split.
  - apply (proj1 (@not_found_iff_no_own_note reference (world ana_note_db (signed_in 1))
                    1 "5" 5 eq_refl ltac:(done) eq_refl)).
    done.
  - apply (proj2 (@not_found_iff_no_own_note reference (world ana_note_db (signed_in 1))
                    1 "99999999999" 99999999999 eq_refl ltac:(done) eq_refl)).
    unfold int4. lia.
Defined.

Lemma owner_update_changes_only_that_note_witness :
  ∃ w',
    @handle reference (UpdateNote "1" rename_body) (world ana_note_db (signed_in 1))
    = (Return (note_response pay_rent), w')
    ∧ (∀ m, m ∈ notes (w_db w')
            <-> m = pay_rent ∨ (m ∈ notes ana_note_db ∧ note_id m ≠ 1)).
Proof.
  destruct (@owner_update_changes_only_that_note reference
              (world ana_note_db (signed_in 1)) pay_bills "1" rename_body rename rename
              ana_note_db_pkey pay_bills_in_ana_note_db eq_refl ltac:(done)
              eq_refl ltac:(vm_compute; reflexivity) eq_refl eq_refl eq_refl)
    as (w' & Hrun & _ & _ & Hmem & _).
  exists w'. split; [exact Hrun|exact Hmem].
Defined.

Lemma owner_delete_removes_only_that_note_witness :
  ∃ w',
    @handle reference (DeleteNote "1") (world ana_note_db (signed_in 1))
    = (Return {| res_status := 200;
                 res_body := message_json "Anotação excluída com sucesso" |}, w')
    ∧ (pay_bills ∉ notes (w_db w'))
    ∧ @handle reference (DeleteNote "1") w' = (Return note_not_found, w').
Proof.
  destruct (@owner_delete_removes_only_that_note reference
              (world ana_note_db (signed_in 1)) pay_bills "1"
              ana_note_db_pkey pay_bills_in_ana_note_db eq_refl ltac:(done) eq_refl)
    as (w' & Hrun & _ & _ & _ & Hgone & _ & Hagain).
  exists w'. split; [exact Hrun|]. split; [exact Hgone|exact Hagain].
Defined.

Lemma edit_form_overwrites_witness :
  @handleSubmit reference (Some pay_bills) pay_rent_form
  = Some (UpdateNote "1" (insert_note_json pay_rent_form))
  ∧ ∃ w',
      @handle reference (UpdateNote "1" (insert_note_json pay_rent_form))
        (world ana_note_db (signed_in 1))
      = (Return (note_response
                   {| note_id := 1; note_userId := 1; note_title := "Pay rent";
                      note_createdDate := "2024-02-01"; note_completedDate := "2024-02-15";
                      note_status := Concluida |}), w')
      ∧ w_session w' = signed_in 1
      ∧ users (w_db w') = users ana_note_db
      ∧ (∀ m, m ∈ notes (w_db w')
              <-> m = {| note_id := 1; note_userId := 1; note_title := "Pay rent";
                         note_createdDate := "2024-02-01";
                         note_completedDate := "2024-02-15"; note_status := Concluida |}
                  ∨ (m ∈ notes ana_note_db ∧ note_id m ≠ 1)).
Proof.
  apply (@edit_form_overwrites reference (world ana_note_db (signed_in 1)) pay_bills
           pay_rent_form "2024-02-01" "2024-02-15"
           ana_note_db_pkey pay_bills_in_ana_note_db eq_refl);
    first [done | vm_compute; reflexivity].
Defined.

Lemma edit_form_unchanged_is_noop_witness :
  @handleSubmit reference (Some pay_bills) (handleEdit "2024-05-05" pay_bills)
  = Some (UpdateNote "1" (insert_note_json (handleEdit "2024-05-05" pay_bills)))
  ∧ ∃ w' listed listed',
      @handle reference (UpdateNote "1" (insert_note_json (handleEdit "2024-05-05" pay_bills)))
        (world ana_note_db (signed_in 1))
      = (Return (note_response pay_bills), w')
      ∧ w_session w' = signed_in 1
      ∧ users (w_db w') = users ana_note_db
      ∧ users_id_seq (w_db w') = users_id_seq ana_note_db
      ∧ notes_id_seq (w_db w') = notes_id_seq ana_note_db
      ∧ notes (w_db w') ≡ₚ notes ana_note_db
      ∧ pay_bills ∈ notes (w_db w')
      ∧ @handle reference ListNotes (world ana_note_db (signed_in 1))
        = (Return {| res_status := 200; res_body := JArr (note_json <$> listed) |},
           world ana_note_db (signed_in 1))
      ∧ @handle reference ListNotes w'
        = (Return {| res_status := 200; res_body := JArr (note_json <$> listed') |}, w')
      ∧ listed' ≡ₚ listed.
Proof.
  apply (@edit_form_unchanged_is_noop reference (world ana_note_db (signed_in 1)) pay_bills
           "2024-05-05" ana_note_db_pkey pay_bills_in_ana_note_db eq_refl);
    first [done | vm_compute; reflexivity].
Defined.

Lemma no_note_1_after_delete : ¬ Exists (λ n, note_id n = 1) (notes ana_deleted_db).
Proof. intros Hex. by apply Exists_nil in Hex. Defined.

Lemma note_ids_never_reused_witness :
  1 < notes_id_seq ana_deleted_db
  ∧ ¬ Exists (λ n, note_id n = 1)
        (notes (@serve_all reference ana_deleted_db
                  [(signed_in 1, CreateNote pay_bills_body);
                   (signed_in 2, CreateNote pay_bills_body)])).
Proof.
  split; [done|].
  apply (@note_ids_never_reused reference ana_deleted_db _ 1);
    [done|exact no_note_1_after_delete].
Defined.

(** The sessions of the scenario, continued. *)

Example scenario_id_zero_is_no_session :
  @handle reference WhoAmI (world two_users_db (signed_in 0))
  = (Return unauthenticated, world two_users_db (signed_in 0)).
Proof. vm_compute. reflexivity. Qed.

Example scenario_form_rejects_different_passwords :
  @register_handleSubmit reference "salt1"
    {| rf_name := "Ana"; rf_email := "ana@x.com";
       rf_password := "secret1"; rf_confirmPassword := "secret2" |}
  = None.
Proof. vm_compute. reflexivity. Qed.

Example scenario_form_submits_registration :
  @register_handleSubmit reference "salt1"
    {| rf_name := "Ana"; rf_email := "ana@x.com";
       rf_password := "secret1"; rf_confirmPassword := "secret1" |}
  = Some (Register "salt1" ana_body).
Proof. vm_compute. reflexivity. Qed.

(** What the database refuses, and what it does to the order of a table. *)

Example scenario_title_with_nul_refused :
  @insertNoteSchema reference broken_title_body
  = success {| in_title := broken_title; in_createdDate := "2024-01-01";
               in_completedDate := "2024-01-01"; in_status := A_Fazer |}
  ∧ @handle reference (CreateNote broken_title_body) (world two_users_db (signed_in 1))
    = (Return (internal_error "Erro ao criar anotação"), world two_users_db (signed_in 1))
  ∧ @handle reference (UpdateNote "1" (object [("title", JStr broken_title)]))
      (world ana_note_db (signed_in 1))
    = (Return (internal_error "Erro ao atualizar anotação"), world ana_note_db (signed_in 1)).
Proof. repeat split; vm_compute; reflexivity. Qed.

Example scenario_name_with_nul_refused :
  @handle reference (Register "salt3" broken_name_body) (world two_users_db anonymous)
  = (Return (internal_error "Erro interno do servidor"), world two_users_db anonymous).
Proof. vm_compute. reflexivity. Qed.

Example scenario_id_out_of_range_refused :
  @handle reference (UpdateNote "99999999999" rename_body) (world ana_note_db (signed_in 1))
  = (Return (internal_error "Erro ao atualizar anotação"), world ana_note_db (signed_in 1)).
Proof. vm_compute. reflexivity. Qed.

Example scenario_refused_insert_uses_up_an_id :
  @handle reference (CreateNote pay_bills_body) (world two_users_db (signed_in 7))
  = (Return (internal_error "Erro ao criar anotação"),
     world (with_notes two_users_db [] 2) (signed_in 7)).
Proof. vm_compute. reflexivity. Qed.

Example scenario_updated_note_is_listed_last :
  notes two_notes_db = [pay_bills; buy_milk]
  ∧ notes (@serve reference two_notes_db
             (signed_in 1, @markCompletedMutation reference "2024-03-05" 1))
    = [buy_milk; completed "2024-03-05" pay_bills].
Proof. split; vm_compute; reflexivity. Qed.
